(** * Optical-frames inventory: the dedup/merge, search, export and stats core

    A shallow embedding of [models.py], [main.py] and [telegram_bot.py].

    Conventions of the embedding.
    - Text is [string] (8-bit characters).  [lower] is ASCII lower-casing, the
      range on which Python's [str.lower] and SQLite's [LOWER] agree.
    - A Python value reaching [getattr]/[setattr], a dict value or [esc] is a
      [value]; [Frame.price] is a rational (the model of a Python float that
      keeps the zero test and the average exact).
    - The [frames] table is the list of its rows in rowid order; a SQLAlchemy
      session is a working copy of the table that [session_commit] publishes.
      The table is the one [init_db] of [main.py] creates: the primary key
      and no unique index on brand and model (the bot installs that index
      only when it finds no duplicates), so a commit does not fail.
    - A bot handler returns the reply it sends together with the table it
      leaves behind. *)

From Stdlib Require Import ZArith QArith List String Ascii Bool Lia DecimalString.
Import ListNotations.
Local Open Scope string_scope.
Local Open Scope Z_scope.

(* ------------------------------------------------------------------ *)
(** ** Text *)

(** [str.lower] on one ASCII character. *)
Definition lower_ascii (c : ascii) : ascii :=
  let n := nat_of_ascii c in
  if ((65 <=? n) && (n <=? 90))%nat then ascii_of_nat (n + 32) else c.

(** [str.lower]; also SQL [LOWER(col)]. *)
Fixpoint lower (s : string) : string :=
  match s with
  | EmptyString => EmptyString
  | String c s' => String (lower_ascii c) (lower s')
  end.

(** [ch in s] for a single character. *)
Fixpoint char_in (ch : ascii) (s : string) : bool :=
  match s with
  | EmptyString => false
  | String c s' => Ascii.eqb c ch || char_in ch s'
  end.

(** [s.startswith(p)]. *)
Fixpoint startswith (p s : string) : bool :=
  match p, s with
  | EmptyString, _ => true
  | String a p', String b s' => Ascii.eqb a b && startswith p' s'
  | String _ _, EmptyString => false
  end.

(** [p in s] for strings: [p] occurs in [s] as a contiguous block. *)
Fixpoint contains (p s : string) : bool :=
  startswith p s ||
  match s with
  | EmptyString => false
  | String _ s' => contains p s'
  end.

(** SQL [s LIKE p]: [%] matches any run of characters, [_] exactly one, every
    other character itself.  [like_star] is the scan started by a [%]. *)
Fixpoint like (p : string) : string -> bool :=
  match p with
  | EmptyString => fun s => match s with EmptyString => true | _ => false end
  | String c p' =>
      if Ascii.eqb c "%" then
        fix like_star (s : string) : bool :=
          like p' s ||
          match s with
          | EmptyString => false
          | String _ s' => like_star s'
          end
      else if Ascii.eqb c "_" then
        fun s => match s with EmptyString => false | String _ s' => like p' s' end
      else
        fun s => match s with
                 | EmptyString => false
                 | String d s' => Ascii.eqb c d && like p' s'
                 end
  end.

(** [col.ilike(pattern)], which SQLAlchemy renders for SQLite as
    [lower(col) LIKE lower(pattern)]. *)
Definition ilike (col pattern : string) : bool :=
  like (lower pattern) (lower col).

(** [str(n)] for an [int]. *)
Definition str_int (z : Z) : string := NilZero.string_of_int (Z.to_int z).

(* ------------------------------------------------------------------ *)
(** ** Python values *)

Inductive value : Type :=
| VNone
| VStr (s : string)
| VInt (z : Z)
| VFloat (q : Q).

(** [bool(q)] for a float: false exactly on zero. *)
Definition Qtruthy (q : Q) : bool := negb (Qnum q =? 0).

(** [v in (None, "", 0)]. *)
Definition in_None_empty_0 (v : value) : bool :=
  match v with
  | VNone => true
  | VStr s => String.eqb s ""
  | VInt z => z =? 0
  | VFloat q => negb (Qtruthy q)
  end.

(** [v in (None, "")]. *)
Definition in_None_empty (v : value) : bool :=
  match v with
  | VNone => true
  | VStr s => String.eqb s ""
  | VInt _ | VFloat _ => false
  end.

(** [n or 0] on an [int]. *)
Definition or_0 (n : Z) : Z := if n =? 0 then 0 else n.

(** [s or ""] on an optional text. *)
Definition or_empty (s : option string) : string :=
  match s with
  | Some t => t
  | None => ""
  end.

Definition value_of_text (s : option string) : value :=
  match s with Some t => VStr t | None => VNone end.
Definition value_of_int (z : option Z) : value :=
  match z with Some n => VInt n | None => VNone end.
Definition value_of_float (q : option Q) : value :=
  match q with Some x => VFloat x | None => VNone end.

(* ------------------------------------------------------------------ *)
(** ** models.py *)

Definition MATERIAL_CHOICES : list string :=
  [ "plastic"; "acetate"; "metal"; "stainless steel"; "titanium";
    "aluminum"; "wood"; "carbon fiber"; "other"; "unknown" ].

(** [s in MATERIAL_CHOICES]. *)
Definition in_MATERIAL_CHOICES (s : string) : bool :=
  existsb (String.eqb s) MATERIAL_CHOICES.

(** A row of the [frames] table.  [created_at] is a timestamp. *)
Record Frame : Type := mkFrame {
  id : Z;
  brand : option string;
  model_code : string;
  material : option string;
  lens_width : option Z;
  bridge_size : option Z;
  temple_length : option Z;
  color : option string;
  shape : option string;
  gender : option string;
  price : option Q;
  stock : Z;
  notes : option string;
  created_at : Z
}.

(** The attribute names that [FIELD_MAP] resolves to. *)
Inductive field : Type :=
| Brand | ModelCode | Material | LensWidth | BridgeSize | TempleLength
| Color | Shape | Gender | Price | Stock | Notes.

(** [getattr(frame, f)]. *)
Definition getattr (r : Frame) (f : field) : value :=
  match f with
  | Brand => value_of_text (brand r)
  | ModelCode => VStr (model_code r)
  | Material => value_of_text (material r)
  | LensWidth => value_of_int (lens_width r)
  | BridgeSize => value_of_int (bridge_size r)
  | TempleLength => value_of_int (temple_length r)
  | Color => value_of_text (color r)
  | Shape => value_of_text (shape r)
  | Gender => value_of_text (gender r)
  | Price => value_of_float (price r)
  | Stock => VInt (stock r)
  | Notes => value_of_text (notes r)
  end.

Definition set_id (r : Frame) (x : Z) : Frame :=
  mkFrame x (brand r) (model_code r) (material r) (lens_width r) (bridge_size r)
    (temple_length r) (color r) (shape r) (gender r) (price r) (stock r) (notes r)
    (created_at r).
Definition set_brand (r : Frame) (x : option string) : Frame :=
  mkFrame (id r) x (model_code r) (material r) (lens_width r) (bridge_size r)
    (temple_length r) (color r) (shape r) (gender r) (price r) (stock r) (notes r)
    (created_at r).
Definition set_model_code (r : Frame) (x : string) : Frame :=
  mkFrame (id r) (brand r) x (material r) (lens_width r) (bridge_size r)
    (temple_length r) (color r) (shape r) (gender r) (price r) (stock r) (notes r)
    (created_at r).
Definition set_material (r : Frame) (x : option string) : Frame :=
  mkFrame (id r) (brand r) (model_code r) x (lens_width r) (bridge_size r)
    (temple_length r) (color r) (shape r) (gender r) (price r) (stock r) (notes r)
    (created_at r).
Definition set_lens_width (r : Frame) (x : option Z) : Frame :=
  mkFrame (id r) (brand r) (model_code r) (material r) x (bridge_size r)
    (temple_length r) (color r) (shape r) (gender r) (price r) (stock r) (notes r)
    (created_at r).
Definition set_bridge_size (r : Frame) (x : option Z) : Frame :=
  mkFrame (id r) (brand r) (model_code r) (material r) (lens_width r) x
    (temple_length r) (color r) (shape r) (gender r) (price r) (stock r) (notes r)
    (created_at r).
Definition set_temple_length (r : Frame) (x : option Z) : Frame :=
  mkFrame (id r) (brand r) (model_code r) (material r) (lens_width r) (bridge_size r)
    x (color r) (shape r) (gender r) (price r) (stock r) (notes r)
    (created_at r).
Definition set_color (r : Frame) (x : option string) : Frame :=
  mkFrame (id r) (brand r) (model_code r) (material r) (lens_width r) (bridge_size r)
    (temple_length r) x (shape r) (gender r) (price r) (stock r) (notes r)
    (created_at r).
Definition set_shape (r : Frame) (x : option string) : Frame :=
  mkFrame (id r) (brand r) (model_code r) (material r) (lens_width r) (bridge_size r)
    (temple_length r) (color r) x (gender r) (price r) (stock r) (notes r)
    (created_at r).
Definition set_gender (r : Frame) (x : option string) : Frame :=
  mkFrame (id r) (brand r) (model_code r) (material r) (lens_width r) (bridge_size r)
    (temple_length r) (color r) (shape r) x (price r) (stock r) (notes r)
    (created_at r).
Definition set_price (r : Frame) (x : option Q) : Frame :=
  mkFrame (id r) (brand r) (model_code r) (material r) (lens_width r) (bridge_size r)
    (temple_length r) (color r) (shape r) (gender r) x (stock r) (notes r)
    (created_at r).
Definition set_stock (r : Frame) (x : Z) : Frame :=
  mkFrame (id r) (brand r) (model_code r) (material r) (lens_width r) (bridge_size r)
    (temple_length r) (color r) (shape r) (gender r) (price r) x (notes r)
    (created_at r).
Definition set_notes (r : Frame) (x : option string) : Frame :=
  mkFrame (id r) (brand r) (model_code r) (material r) (lens_width r) (bridge_size r)
    (temple_length r) (color r) (shape r) (gender r) (price r) (stock r) x
    (created_at r).
Definition set_created_at (r : Frame) (x : Z) : Frame :=
  mkFrame (id r) (brand r) (model_code r) (material r) (lens_width r) (bridge_size r)
    (temple_length r) (color r) (shape r) (gender r) (price r) (stock r) (notes r)
    x.

(** [setattr(frame, f, v)].  The values that reach it come out of the casters
    of [FIELD_MAP] or out of another [Frame], so they have the column's type;
    a value of another type leaves the typed row as it is. *)
Definition setattr (r : Frame) (f : field) (v : value) : Frame :=
  match f, v with
  | Brand, VStr s => set_brand r (Some s)
  | Brand, VNone => set_brand r None
  | ModelCode, VStr s => set_model_code r s
  | Material, VStr s => set_material r (Some s)
  | Material, VNone => set_material r None
  | LensWidth, VInt z => set_lens_width r (Some z)
  | LensWidth, VNone => set_lens_width r None
  | BridgeSize, VInt z => set_bridge_size r (Some z)
  | BridgeSize, VNone => set_bridge_size r None
  | TempleLength, VInt z => set_temple_length r (Some z)
  | TempleLength, VNone => set_temple_length r None
  | Color, VStr s => set_color r (Some s)
  | Color, VNone => set_color r None
  | Shape, VStr s => set_shape r (Some s)
  | Shape, VNone => set_shape r None
  | Gender, VStr s => set_gender r (Some s)
  | Gender, VNone => set_gender r None
  | Price, VFloat q => set_price r (Some q)
  | Price, VNone => set_price r None
  | Stock, VInt z => set_stock r z
  | Notes, VStr s => set_notes r (Some s)
  | Notes, VNone => set_notes r None
  | _, _ => r
  end.

(** The value [v] has the type of column [f]. *)
Definition has_type (f : field) (v : value) : bool :=
  match f, v with
  | (Brand | Material | Color | Shape | Gender | Notes), (VStr _ | VNone) => true
  | ModelCode, VStr _ => true
  | (LensWidth | BridgeSize | TempleLength), (VInt _ | VNone) => true
  | Price, (VFloat _ | VNone) => true
  | Stock, VInt _ => true
  | _, _ => false
  end.

(** [Frame.to_dict], in the order of its keys; [isoformat] renders the
    timestamp. *)
Definition to_dict (isoformat : Z -> string) (r : Frame) : list (string * value) :=
  [ ("id", VInt (id r));
    ("brand", value_of_text (brand r));
    ("model_code", VStr (model_code r));
    ("material", value_of_text (material r));
    ("lens_width", value_of_int (lens_width r));
    ("bridge_size", value_of_int (bridge_size r));
    ("temple_length", value_of_int (temple_length r));
    ("color", value_of_text (color r));
    ("shape", value_of_text (shape r));
    ("gender", value_of_text (gender r));
    ("price", value_of_float (price r));
    ("stock", VInt (stock r));
    ("notes", value_of_text (notes r));
    ("created_at", VStr (isoformat (created_at r))) ].

(* ------------------------------------------------------------------ *)
(** ** The dict of cast fields ([norm], [data]) *)

(** The dict that the cast loop of [normalize_fields] fills: one optional
    entry per attribute name, of the type its caster returns. *)
Record Fields : Type := mkFields {
  get_brand : option string;
  get_model_code : option string;
  get_material : option string;
  get_lens_width : option Z;
  get_bridge_size : option Z;
  get_temple_length : option Z;
  get_color : option string;
  get_shape : option string;
  get_gender : option string;
  get_price : option Q;
  get_stock : option Z;
  get_notes : option string
}.

(** [norm[f]] when [f in norm]. *)
Definition lookup (d : Fields) (f : field) : option value :=
  match f with
  | Brand => option_map VStr (get_brand d)
  | ModelCode => option_map VStr (get_model_code d)
  | Material => option_map VStr (get_material d)
  | LensWidth => option_map VInt (get_lens_width d)
  | BridgeSize => option_map VInt (get_bridge_size d)
  | TempleLength => option_map VInt (get_temple_length d)
  | Color => option_map VStr (get_color d)
  | Shape => option_map VStr (get_shape d)
  | Gender => option_map VStr (get_gender d)
  | Price => option_map VFloat (get_price d)
  | Stock => option_map VInt (get_stock d)
  | Notes => option_map VStr (get_notes d)
  end.

Definition with_material (d : Fields) (m : option string) : Fields :=
  mkFields (get_brand d) (get_model_code d) m (get_lens_width d)
    (get_bridge_size d) (get_temple_length d) (get_color d) (get_shape d)
    (get_gender d) (get_price d) (get_stock d) (get_notes d).

(** The empty dict. *)
Definition no_fields : Fields :=
  mkFields None None None None None None None None None None None None.

(** [normalize_fields], after its cast loop has produced [out]: a material
    whose lower-case form is not one of [MATERIAL_CHOICES] becomes
    ["unknown"]. *)
Definition normalize_fields (out : Fields) : Fields :=
  match get_material out with
  | Some m =>
      if negb (in_MATERIAL_CHOICES (lower m))
      then with_material out (Some "unknown")
      else out
  | None => out
  end.

(* ------------------------------------------------------------------ *)
(** ** db.py: the table and the session *)

(** The [frames] table: its rows, in rowid order. *)
Definition Table : Type := list Frame.
Bind Scope list_scope with Table.

(** A session: the committed table and the working copy that the pending
    changes of the session have produced. *)
Record Session : Type := mkSession {
  committed : Table;
  working : Table
}.

(** [SessionLocal()]. *)
Definition SessionLocal (db : Table) : Session := mkSession db db.

(** The rowid that SQLite gives to the next inserted row: one more than the
    largest one in the table, [1] in an empty table. *)
Definition next_id (rows : Table) : Z :=
  1 + fold_right Z.max 0 (map id rows).

(** [session.get(Frame, i)]. *)
Definition session_get (s : Session) (i : Z) : option Frame :=
  find (fun r => id r =? i) (working s).

(** [session.query(Frame).filter(p).first()]. *)
Definition query_first (s : Session) (p : Frame -> bool) : option Frame :=
  find p (working s).

(** [session.add(frame)] followed by [session.refresh(frame)]: the row enters
    the table under a fresh id; the refreshed object is returned. *)
Definition session_add (s : Session) (frame : Frame) : Frame * Session :=
  let frame' := set_id frame (next_id (working s)) in
  (frame', mkSession (committed s) (working s ++ [frame'])%list).

(** The attribute writes made on a row loaded in the session: the row with
    that primary key is replaced by the mutated object. *)
Definition session_set (s : Session) (r : Frame) : Session :=
  mkSession (committed s)
    (map (fun x => if id x =? id r then r else x) (working s)).

(** [session.delete(row)]. *)
Definition session_delete (s : Session) (r : Frame) : Session :=
  mkSession (committed s)
    (filter (fun x => negb (id x =? id r)) (working s)).

(** [session.commit()]: all pending changes are published at once. *)
Definition session_commit (s : Session) : Session :=
  mkSession (working s) (working s).

(** Leaving the [with SessionLocal() as session] block: what was not
    committed is dropped. *)
Definition session_close (s : Session) : Table := committed s.

(** [Frame] built from the keyword arguments of a dict [d] whose [model_code]
    is [mc], with the column
    defaults of [models.py] for what [d] leaves out ([material] defaults to
    ["unknown"], [stock] to [0]) and [created_at] set to [now].  The id is
    given at insertion. *)
Definition Frame_kwargs (d : Fields) (mc : string) (now : Z) : Frame :=
  mkFrame 0 (get_brand d) mc
    (match get_material d with Some m => Some m | None => Some "unknown" end)
    (get_lens_width d) (get_bridge_size d) (get_temple_length d)
    (get_color d) (get_shape d) (get_gender d) (get_price d)
    (match get_stock d with Some n => n | None => 0 end)
    (get_notes d) now.

(** The SQL test of both handlers:
    [lower(model_code) == model_val] and
    [coalesce(lower(brand), "") == brand_val]. *)
Definition same_brand_model (brand_val model_val : string) (r : Frame) : bool :=
  String.eqb (lower (model_code r)) model_val &&
  String.eqb (or_empty (option_map lower (brand r))) brand_val.

(** The Matching Key of a row and of a dict. *)
Definition key_of_frame (r : Frame) : string * string :=
  (lower (or_empty (brand r)), lower (model_code r)).

Definition key_of_fields (d : Fields) : option (string * string) :=
  match get_model_code d with
  | Some mc => Some (lower (or_empty (get_brand d)), lower mc)
  | None => None
  end.

(* ------------------------------------------------------------------ *)
(** ** telegram_bot.py: /add *)

Definition updatable_fields : list field :=
  [ Material; LensWidth; BridgeSize; TempleLength; Color; Shape; Gender;
    Price; Notes ].

(** One round of the fill loop of [add]:
    [if getattr(existing, f) in (None, "", 0) and f in norm
        and norm[f] not in (None, ""): setattr(existing, f, norm[f])]. *)
Definition add_fill (norm : Fields) (existing : Frame) (f : field) : Frame :=
  if in_None_empty_0 (getattr existing f) then
    match lookup norm f with
    | Some v => if negb (in_None_empty v) then setattr existing f v else existing
    | None => existing
    end
  else existing.

(** The stock that [add] adds on its merge path:
    [norm.get("stock", 0) or 0], and [1] when that is [0]. *)
Definition add_stock_of (norm : Fields) : Z :=
  let add_stock := or_0 (match get_stock norm with Some n => n | None => 0 end) in
  if add_stock =? 0 then 1 else add_stock.

(** The merge path of [add] on the row found. *)
Definition add_merge (norm : Fields) (existing : Frame) : Frame :=
  let existing := set_stock existing (or_0 (stock existing) + add_stock_of norm) in
  fold_left (add_fill norm) updatable_fields existing.

(** The replies of [add]. *)
Inductive AddReply : Type :=
| MissingModel
| UpdatedExisting (existing : Frame) (old_stock : Z)
| Added (frame : Frame).



(** [add]: [out] is the dict cast from the message, [now] is
    [datetime.utcnow()]. *)
Definition add (out : Fields) (now : Z) (db : Table) : AddReply * Table :=
  let norm := normalize_fields out in
  match get_model_code norm with
  | None => (MissingModel, db)
  | Some mc =>
      let session := SessionLocal db in
      let brand_val := lower (or_empty (get_brand norm)) in
      let model_val := lower mc in
      match query_first session (same_brand_model brand_val model_val) with
      | Some existing =>
          let old_stock := stock existing in
          let existing := add_merge norm existing in
          let session := session_commit (session_set session existing) in
          (UpdatedExisting existing old_stock, session_close session)
      | None =>
          let frame := Frame_kwargs norm mc now in
          let frame :=
            match get_stock norm with
            | None => set_stock frame 1
            | Some _ => frame
            end in
          let (frame, session) := session_add session frame in
          let session := session_commit session in
          (Added frame, session_close session)
      end
  end.

(* ------------------------------------------------------------------ *)
(** ** telegram_bot.py: the last step of /new *)

(** One round of the fill loop of [new_confirm]:
    [if getattr(existing, f) in (None, "", 0) and f in data:
        setattr(existing, f, data[f])]. *)
Definition new_fill (data : Fields) (existing : Frame) (f : field) : Frame :=
  if in_None_empty_0 (getattr existing f) then
    match lookup data f with
    | Some v => setattr existing f v
    | None => existing
    end
  else existing.

(** [data.get("stock") or 0 or 1]. *)
Definition new_stock_of (data : Fields) : Z :=
  let s := match get_stock data with Some n => or_0 n | None => 0 end in
  if s =? 0 then 1 else s.

Definition new_merge (data : Fields) (existing : Frame) : Frame :=
  let existing := set_stock existing (or_0 (stock existing) + new_stock_of data) in
  fold_left (new_fill data) updatable_fields existing.

Inductive NewReply : Type :=
| NewKeyError
| MergedIntoExisting (existing : Frame) (old_stock : Z)
| SavedNew (frame : Frame).

(** [new_confirm] after the answer [yes]; [data] is the dict collected by the
    conversation.  [data["model_code"]] raises [KeyError] when the key is not
    there. *)
Definition new_confirm (data : Fields) (now : Z) (db : Table) : NewReply * Table :=
  let session := SessionLocal db in
  let brand_val := lower (or_empty (get_brand data)) in
  match get_model_code data with
  | None => (NewKeyError, session_close session)
  | Some mc =>
      let model_val := lower mc in
      match query_first session (same_brand_model brand_val model_val) with
      | Some existing =>
          let old_stock := stock existing in
          let existing := new_merge data existing in
          let session := session_commit (session_set session existing) in
          (MergedIntoExisting existing old_stock, session_close session)
      | None =>
          let frame := Frame_kwargs data mc now in
          let (frame, session) := session_add session frame in
          let session := session_commit session in
          (SavedNew frame, session_close session)
      end
  end.

(* ------------------------------------------------------------------ *)
(** ** telegram_bot.py: /merge *)

Definition merge_fields : list field :=
  [ Material; LensWidth; BridgeSize; TempleLength; Color; Shape; Gender;
    Price; Notes; Brand ].

(** One round of the fill loop of [merge_cmd]:
    [if getattr(tgt, f) in (None, "", 0) and getattr(src, f) not in (None, ""):
        setattr(tgt, f, getattr(src, f))]. *)
Definition merge_fill (src tgt : Frame) (f : field) : Frame :=
  if in_None_empty_0 (getattr tgt f) && negb (in_None_empty (getattr src f))
  then setattr tgt f (getattr src f)
  else tgt.

Definition merge_rows (src tgt : Frame) : Frame :=
  let tgt := set_stock tgt (or_0 (stock tgt) + or_0 (stock src)) in
  fold_left (merge_fill src) merge_fields tgt.

(** The replies of [merge_cmd] once both ids are numbers. *)
Inductive MergeReply : Type :=
| MustDiffer
| SourceOrTargetNotFound
| MergedInto (sid tid new_stock : Z).

(** [merge_cmd] on the ids [sid] and [tid] read from the command. *)
Definition merge_cmd (sid tid : Z) (db : Table) : MergeReply * Table :=
  if sid =? tid then (MustDiffer, db)
  else
    let session := SessionLocal db in
    match session_get session sid, session_get session tid with
    | Some src, Some tgt =>
        let tgt := merge_rows src tgt in
        let session := session_set session tgt in
        let new_stock := stock tgt in
        let session := session_delete session src in
        let session := session_commit session in
        (MergedInto sid tid new_stock, session_close session)
    | _, _ => (SourceOrTargetNotFound, session_close session)
    end.

(* ------------------------------------------------------------------ *)
(** ** main.py: add *)

(** [add_frame]: the frame built by [prompt_add_frame] is inserted; the
    refreshed object is what the message prints. *)
Definition add_frame (frame : Frame) (db : Table) : Frame * Table :=
  let session := SessionLocal db in
  let (frame, session) := session_add session frame in
  let session := session_commit session in
  (frame, session_close session).

(* ------------------------------------------------------------------ *)
(** ** Search: the WHERE clauses and the query *)

(** What SQL gives for a test on a NULL column is NULL, and the row is not
    selected: the comparisons below are false on [VNone] and [None]. *)

(** [col == v]. *)
Definition sql_eq (col v : value) : bool :=
  match col, v with
  | VInt a, VInt b => a =? b
  | VFloat a, VFloat b => Qeq_bool a b
  | VStr a, VStr b => String.eqb a b
  | _, _ => false
  end.

(** [col.ilike(pattern)] on a column value. *)
Definition sql_ilike (col : value) (pattern : string) : bool :=
  match col with
  | VStr s => ilike s pattern
  | _ => false
  end.

(** [Frame.price >= bound] and [Frame.price <= bound]. *)
Definition sql_price_ge (r : Frame) (bound : Q) : bool :=
  match price r with Some p => Qle_bool bound p | None => false end.
Definition sql_price_le (r : Frame) (bound : Q) : bool :=
  match price r with Some p => Qle_bool p bound | None => false end.

(** [order_by(Frame.created_at.desc())]: newest first; rows with the same
    timestamp stay in table order. *)
Fixpoint insert_desc (r : Frame) (l : list Frame) : list Frame :=
  match l with
  | [] => [r]
  | x :: l' =>
      if created_at x <=? created_at r then r :: l else x :: insert_desc r l'
  end.

Definition order_by_created_at_desc (rows : list Frame) : list Frame :=
  fold_right insert_desc [] rows.

(** [query.order_by(Frame.created_at.desc()).limit(n).all()] for the query
    whose filters are [cond]. *)
Definition query_all (cond : Frame -> bool) (n : nat) (db : Table) : list Frame :=
  firstn n (order_by_created_at_desc (filter cond db)).

Definition all_fields : list field :=
  [ Brand; ModelCode; Material; LensWidth; BridgeSize; TempleLength; Color;
    Shape; Gender; Price; Stock; Notes ].

(** The filter that the loop of the bot's [search] adds for one entry of
    [norm]: [ilike] of the value between two [%] for a [str], equality for
    the rest. *)
Definition search_filter (r : Frame) (f : field) (v : value) : bool :=
  match v with
  | VStr s => sql_ilike (getattr r f) ("%" ++ s ++ "%")
  | _ => sql_eq (getattr r f) v
  end.

(** All the filters of the bot's [search]. *)
Definition search_where (norm : Fields) (min_price max_price : option Q)
    (r : Frame) : bool :=
  forallb (fun f => match lookup norm f with
                    | Some v => search_filter r f v
                    | None => true
                    end) all_fields
  && match min_price with Some m => sql_price_ge r m | None => true end
  && match max_price with Some m => sql_price_le r m | None => true end.

(** The bot's [search]: [out] is the dict cast from the message, the two
    bounds are the [min_price] and [max_price] read from it.  The result is
    the rows that the reply lists (none: the reply is [No matches.]). *)
Definition search (out : Fields) (min_price max_price : option Q) (db : Table)
    : list Frame :=
  let norm := normalize_fields out in
  query_all (search_where norm min_price max_price) 10 db.

(** The [filters] dict that [prompt_search] of [main.py] builds. *)
Record Filters : Type := mkFilters {
  filter_brand : option string;
  filter_model_code : option string;
  filter_material : option string;
  filter_color : option string;
  filter_shape : option string;
  filter_gender : option string;
  filter_min_price : option Q;
  filter_max_price : option Q;
  filter_lens_width : option Z
}.

Definition no_filters : Filters :=
  mkFilters None None None None None None None None None.

Definition text_fields : list field :=
  [ Brand; ModelCode; Material; Color; Shape; Gender ].

(** [filters[field]] for one of the [text_fields]. *)
Definition filters_text (filters : Filters) (f : field) : option string :=
  match f with
  | Brand => filter_brand filters
  | ModelCode => filter_model_code filters
  | Material => filter_material filters
  | Color => filter_color filters
  | Shape => filter_shape filters
  | Gender => filter_gender filters
  | _ => None
  end.

(** All the filters of [search_frames]. *)
Definition search_frames_where (filters : Filters) (r : Frame) : bool :=
  forallb (fun f => match filters_text filters f with
                    | Some v => sql_ilike (getattr r f) ("%" ++ v ++ "%")
                    | None => true
                    end) text_fields
  && match filter_lens_width filters with
     | Some w => sql_eq (value_of_int (lens_width r)) (VInt w)
     | None => true
     end
  && match filter_min_price filters with Some m => sql_price_ge r m | None => true end
  && match filter_max_price filters with Some m => sql_price_le r m | None => true end.

(** [search_frames] of [main.py]: the rows it prints. *)
Definition search_frames (filters : Filters) (db : Table) : list Frame :=
  query_all (search_frames_where filters) 100 db.

(* ------------------------------------------------------------------ *)
(** ** CSV export *)

Definition comma : ascii := ",".
Definition dquote : ascii := "034".
Definition newline : ascii := "010".
Definition carriage_return : ascii := "013".

(** [s.replace(dquote, dquote dquote)]. *)
Fixpoint double_quotes (s : string) : string :=
  match s with
  | EmptyString => EmptyString
  | String c s' =>
      if Ascii.eqb c dquote
      then String dquote (String dquote (double_quotes s'))
      else String c (double_quotes s')
  end.

(** [any(ch in s for ch in [comma, dquote, newline])]. *)
Definition needs_quoting (s : string) : bool :=
  existsb (fun ch => char_in ch s) [comma; dquote; newline].

(** [sep.join(l)]. *)
Fixpoint join (sep : string) (l : list string) : string :=
  match l with
  | [] => ""
  | [x] => x
  | x :: l' => x ++ sep ++ join sep l'
  end.

Definition headers : list string :=
  [ "id"; "brand"; "model_code"; "material"; "lens_width"; "bridge_size";
    "temple_length"; "color"; "shape"; "gender"; "price"; "stock"; "notes";
    "created_at" ].

(** [d[h]] on the dict of [to_dict], which has every header as a key. *)
Definition dict_get (d : list (string * value)) (h : string) : value :=
  match find (fun kv => String.eqb (fst kv) h) d with
  | Some kv => snd kv
  | None => VNone
  end.

Section CsvExport.

(** [str(x)] for a float and [datetime.isoformat] belong to Python. *)
Variable str_float : Q -> string.
Variable isoformat : Z -> string.

(** [str(v)]. *)
Definition py_str (v : value) : string :=
  match v with
  | VNone => "None"
  | VStr s => s
  | VInt z => str_int z
  | VFloat q => str_float q
  end.

(** The local function [esc] of [export_cmd]. *)
Definition esc (v : value) : string :=
  match v with
  | VNone => ""
  | _ =>
      let s := py_str v in
      if needs_quoting s
      then String dquote (double_quotes s ++ String dquote "")
      else s
  end.

(** The line that [export_cmd] writes for one row. *)
Definition csv_line (r : Frame) : string :=
  let d := to_dict isoformat r in
  join "," (map (fun h => esc (dict_get d h)) headers) ++ String newline "".

(** What the default branch of [export_cmd] writes to the buffer. *)
Definition csv_export (rows : list Frame) : string :=
  (join "," headers ++ String newline "") ++ join "" (map csv_line rows).

End CsvExport.

(** A standard CSV reader (RFC 4180, the default dialect of Python's [csv]),
    reading one record.  [StartField]: at the start of a field; [InField]:
    in a bare field; [InQuoted]: in a quoted field; [QuoteInQuoted]: after a
    quote met in a quoted field.  [cur] is the field read so far and [done]
    the fields before it. *)
Inductive csv_state : Type := StartField | InField | InQuoted | QuoteInQuoted.

Fixpoint csv_reader (st : csv_state) (done : list string) (cur : string)
    (s : string) : list string :=
  match s with
  | EmptyString => (done ++ [cur])%list
  | String c s' =>
      match st with
      | StartField | InField =>
          if Ascii.eqb c comma then csv_reader StartField (done ++ [cur])%list "" s'
          else if Ascii.eqb c newline || Ascii.eqb c carriage_return
               then (done ++ [cur])%list
          else if Ascii.eqb c dquote && match st with StartField => true | _ => false end
               then csv_reader InQuoted done cur s'
          else csv_reader InField done (cur ++ String c "") s'
      | InQuoted =>
          if Ascii.eqb c dquote then csv_reader QuoteInQuoted done cur s'
          else csv_reader InQuoted done (cur ++ String c "") s'
      | QuoteInQuoted =>
          if Ascii.eqb c dquote
          then csv_reader InQuoted done (cur ++ String dquote "") s'
          else if Ascii.eqb c comma then csv_reader StartField (done ++ [cur])%list "" s'
          else if Ascii.eqb c newline || Ascii.eqb c carriage_return
               then (done ++ [cur])%list
          else csv_reader InField done (cur ++ String c "") s'
      end
  end.

Definition csv_read_record (s : string) : list string :=
  csv_reader StartField [] "" s.

(* ------------------------------------------------------------------ *)
(** ** telegram_bot.py: /stats *)

Inductive exn : Type := ZeroDivisionError.

(** [a / b] on two [int]s. *)
Definition true_div (a b : Z) : exn + Q :=
  if b =? 0 then inl ZeroDivisionError else inr (inject_Z a / inject_Z b)%Q.

(** [func.count(Frame.id)]. *)
Definition sql_count (rows : Table) : Z := Z.of_nat (List.length rows).

Definition option_string_dec (a b : option string) : {a = b} + {a <> b}.
Proof. decide equality. apply string_dec. Defined.

(** [func.count(func.distinct(Frame.brand))]: NULL brands are not counted. *)
Definition sql_count_distinct_brand (rows : Table) : Z :=
  Z.of_nat (List.length (nodup option_string_dec
                      (filter (fun b => match b with Some _ => true | None => false end)
                              (map brand rows)))).

(** [func.avg(Frame.price)]: the mean of the prices that are not NULL, NULL
    when there is none. *)
Definition sql_avg_price (rows : Table) : option Q :=
  let prices := flat_map (fun r => match price r with Some p => [p] | None => [] end) rows in
  match prices with
  | [] => None
  | _ => Some (fold_right Qplus 0%Q prices / inject_Z (Z.of_nat (List.length prices)))%Q
  end.

(** [func.sum(Frame.stock)] over some rows: NULL when there is no row. *)
Definition sql_sum_stock (rows : list Frame) : option Z :=
  match rows with
  | [] => None
  | _ => Some (fold_right Z.add 0 (map stock rows))
  end.

(** [group_by(Frame.brand)]: the distinct brands, each with its rows.  SQL
    fixes no order of the groups; here it is the order [nodup] leaves. *)
Definition group_by_brand (rows : Table) : list (option string * list Frame) :=
  map (fun b => (b, filter (fun r => if option_string_dec (brand r) b then true else false) rows))
      (nodup option_string_dec (map brand rows)).

(** [order_by(desc(score)).first()]: a group of largest score, the earliest
    of the list among equals (SQL fixes none); [None] without groups. *)
Fixpoint first_by_desc {A : Type} (score : A -> Z) (l : list A) : option A :=
  match l with
  | [] => None
  | x :: l' =>
      match first_by_desc score l' with
      | Some y => if score x <? score y then Some y else Some x
      | None => Some x
      end
  end.

(** [b or 'NoBrand']. *)
Definition or_NoBrand (b : option string) : string :=
  match b with
  | Some s => if String.eqb s "" then "NoBrand" else s
  | None => "NoBrand"
  end.

(** The texts that [stats_cmd] puts in its reply. *)
Record StatsTexts : Type := mkStatsTexts {
  total : Z;
  distinct_brands : Z;
  top_by_count_txt : string;
  top_by_stock_txt : string;
  total_stock : Z;
  avg_stock_per_frame : string;
  avg_price_txt : string
}.

Section Stats.

(** [format(x, '.2f')] belongs to Python. *)
Variable fmt2 : Q -> string.

Definition stats_texts (db : Table) : exn + StatsTexts :=
  let total := or_0 (sql_count db) in
  let distinct_brands := or_0 (sql_count_distinct_brand db) in
  let avg_price := sql_avg_price db in
  let avg_price_txt :=
    match avg_price with
    | Some a => if Qtruthy a then fmt2 a else "-"
    | None => "-"
    end in
  let total_stock :=
    match sql_sum_stock db with Some n => or_0 n | None => 0 end in
  let top_by_count :=
    first_by_desc (fun g => sql_count (snd g)) (group_by_brand db) in
  let top_by_count_txt :=
    match top_by_count with
    | Some g => or_NoBrand (fst g) ++ " (" ++ str_int (sql_count (snd g)) ++ " frames)"
    | None => "-"
    end in
  let sum_of g := match sql_sum_stock (snd g) with Some n => n | None => 0 end in
  let top_by_stock := first_by_desc sum_of (group_by_brand db) in
  let top_by_stock_txt :=
    match top_by_stock with
    | Some g => or_NoBrand (fst g) ++ " (" ++ str_int (sum_of g) ++ " units)"
    | None => "-"
    end in
  match (if total =? 0 then inr "-"
         else match true_div total_stock total with
              | inr q => inr (fmt2 q)
              | inl e => inl e
              end) with
  | inl e => inl e
  | inr avg_stock_per_frame =>
      inr (mkStatsTexts total distinct_brands top_by_count_txt top_by_stock_txt
             total_stock avg_stock_per_frame avg_price_txt)
  end.

(** The reply of [stats_cmd]. *)
Definition stats_cmd (db : Table) : exn + string :=
  match stats_texts db with
  | inl e => inl e
  | inr t =>
      inr ("Stats:" ++ String newline "" ++
           "Frames: " ++ str_int (total t) ++ String newline "" ++
           "Brands: " ++ str_int (distinct_brands t) ++ String newline "" ++
           "Top Brand (frames): " ++ top_by_count_txt t ++ String newline "" ++
           "Top Brand (stock): " ++ top_by_stock_txt t ++ String newline "" ++
           "Total Stock Units: " ++ str_int (total_stock t) ++ String newline "" ++
           "Avg Stock / Frame: " ++ avg_stock_per_frame t ++ String newline "" ++
           "Avg Price: " ++ avg_price_txt t)
  end.

End Stats.

(* ------------------------------------------------------------------ *)
(** ** telegram_bot.py: parsing the arguments of a command *)

(** [part.split("=", 1)] for a [part] that has an equals sign: the text
    before the first one and the text after it; [None] without one. *)
Fixpoint split_eq (part : string) : option (string * string) :=
  match part with
  | EmptyString => None
  | String c rest =>
      if Ascii.eqb c "=" then Some (EmptyString, rest)
      else match split_eq rest with
           | Some (k, v) => Some (String c k, v)
           | None => None
           end
  end.

(** A Python [dict] with text keys: its items in insertion order. *)
Definition Dict (V : Type) : Type := list (string * V).
Bind Scope list_scope with Dict.

(** [k in d]. *)
Definition dict_has {V : Type} (d : Dict V) (k : string) : bool :=
  existsb (fun kv => String.eqb (fst kv) k) d.

(** [d.get(k)]. *)
Definition dict_lookup {V : Type} (d : Dict V) (k : string) : option V :=
  option_map snd (find (fun kv => String.eqb (fst kv) k) d).

(** [d[k] = v]: a key that is there keeps its place and takes the value, a
    new key goes to the end. *)
Definition dict_set {V : Type} (d : Dict V) (k : string) (v : V) : Dict V :=
  if dict_has d k
  then map (fun kv => if String.eqb (fst kv) k then (k, v) else kv) d
  else (d ++ [(k, v)])%list.

(** [parse_kv_args] on the parts that [shlex.split] has cut the text in. *)
Definition parse_kv_parts (parts : list string) : Dict string :=
  fold_left (fun data part =>
               match split_eq part with
               | Some (k, v) => dict_set data (lower k) v
               | None => data
               end) parts [].

(** The casters of [FIELD_MAP]. *)
Inductive caster : Type := to_str | to_int | to_float.

(** [FIELD_MAP]: the attribute and the caster of each accepted key. *)
Definition FIELD_MAP : Dict (field * caster) :=
  [ ("brand", (Brand, to_str));
    ("model", (ModelCode, to_str));
    ("model_code", (ModelCode, to_str));
    ("material", (Material, to_str));
    ("lens", (LensWidth, to_int));
    ("lens_width", (LensWidth, to_int));
    ("bridge", (BridgeSize, to_int));
    ("bridge_size", (BridgeSize, to_int));
    ("temple", (TempleLength, to_int));
    ("temple_length", (TempleLength, to_int));
    ("color", (Color, to_str));
    ("shape", (Shape, to_str));
    ("gender", (Gender, to_str));
    ("price", (Price, to_float));
    ("stock", (Stock, to_int));
    ("notes", (Notes, to_str)) ].

Definition with_brand (d : Fields) (x : option string) : Fields :=
  mkFields x (get_model_code d) (get_material d) (get_lens_width d)
    (get_bridge_size d) (get_temple_length d) (get_color d) (get_shape d)
    (get_gender d) (get_price d) (get_stock d) (get_notes d).
Definition with_model_code (d : Fields) (x : option string) : Fields :=
  mkFields (get_brand d) x (get_material d) (get_lens_width d)
    (get_bridge_size d) (get_temple_length d) (get_color d) (get_shape d)
    (get_gender d) (get_price d) (get_stock d) (get_notes d).
Definition with_lens_width (d : Fields) (x : option Z) : Fields :=
  mkFields (get_brand d) (get_model_code d) (get_material d) x
    (get_bridge_size d) (get_temple_length d) (get_color d) (get_shape d)
    (get_gender d) (get_price d) (get_stock d) (get_notes d).
Definition with_bridge_size (d : Fields) (x : option Z) : Fields :=
  mkFields (get_brand d) (get_model_code d) (get_material d) (get_lens_width d)
    x (get_temple_length d) (get_color d) (get_shape d)
    (get_gender d) (get_price d) (get_stock d) (get_notes d).
Definition with_temple_length (d : Fields) (x : option Z) : Fields :=
  mkFields (get_brand d) (get_model_code d) (get_material d) (get_lens_width d)
    (get_bridge_size d) x (get_color d) (get_shape d)
    (get_gender d) (get_price d) (get_stock d) (get_notes d).
Definition with_color (d : Fields) (x : option string) : Fields :=
  mkFields (get_brand d) (get_model_code d) (get_material d) (get_lens_width d)
    (get_bridge_size d) (get_temple_length d) x (get_shape d)
    (get_gender d) (get_price d) (get_stock d) (get_notes d).
Definition with_shape (d : Fields) (x : option string) : Fields :=
  mkFields (get_brand d) (get_model_code d) (get_material d) (get_lens_width d)
    (get_bridge_size d) (get_temple_length d) (get_color d) x
    (get_gender d) (get_price d) (get_stock d) (get_notes d).
Definition with_gender (d : Fields) (x : option string) : Fields :=
  mkFields (get_brand d) (get_model_code d) (get_material d) (get_lens_width d)
    (get_bridge_size d) (get_temple_length d) (get_color d) (get_shape d)
    x (get_price d) (get_stock d) (get_notes d).
Definition with_price (d : Fields) (x : option Q) : Fields :=
  mkFields (get_brand d) (get_model_code d) (get_material d) (get_lens_width d)
    (get_bridge_size d) (get_temple_length d) (get_color d) (get_shape d)
    (get_gender d) x (get_stock d) (get_notes d).
Definition with_stock (d : Fields) (x : option Z) : Fields :=
  mkFields (get_brand d) (get_model_code d) (get_material d) (get_lens_width d)
    (get_bridge_size d) (get_temple_length d) (get_color d) (get_shape d)
    (get_gender d) (get_price d) x (get_notes d).
Definition with_notes (d : Fields) (x : option string) : Fields :=
  mkFields (get_brand d) (get_model_code d) (get_material d) (get_lens_width d)
    (get_bridge_size d) (get_temple_length d) (get_color d) (get_shape d)
    (get_gender d) (get_price d) (get_stock d) x.

(** [out[f] = v] for a value of the type of [f]'s caster; a value of another
    type leaves the typed dict as it is. *)
Definition fields_set (out : Fields) (f : field) (v : value) : Fields :=
  match f, v with
  | Brand, VStr s => with_brand out (Some s)
  | ModelCode, VStr s => with_model_code out (Some s)
  | Material, VStr s => with_material out (Some s)
  | LensWidth, VInt z => with_lens_width out (Some z)
  | BridgeSize, VInt z => with_bridge_size out (Some z)
  | TempleLength, VInt z => with_temple_length out (Some z)
  | Color, VStr s => with_color out (Some s)
  | Shape, VStr s => with_shape out (Some s)
  | Gender, VStr s => with_gender out (Some s)
  | Price, VFloat q => with_price out (Some q)
  | Stock, VInt z => with_stock out (Some z)
  | Notes, VStr s => with_notes out (Some s)
  | _, _ => out
  end.

(** [data.update(norm)]. *)
Definition fields_update (data norm : Fields) : Fields :=
  fold_left (fun d f => match lookup norm f with
                        | Some v => fields_set d f v
                        | None => d
                        end) all_fields data.


Section Casts.

(** [int(raw)] and [float(raw)] belong to Python; [None] stands for the
    exception they raise on a text they do not accept. *)
Variable py_int : string -> option Z.
Variable py_float : string -> option Q.

(** [caster(raw)]. *)
Definition cast (c : caster) (raw : string) : option value :=
  match c with
  | to_str => Some (VStr raw)
  | to_int => option_map VInt (py_int raw)
  | to_float => option_map VFloat (py_float raw)
  end.

(** One round of the cast loop of [normalize_fields]. *)
Definition cast_entry (out : Fields) (kv : string * string) : Fields :=
  match dict_lookup FIELD_MAP (fst kv) with
  | None => out
  | Some (f, c) =>
      match cast c (snd kv) with
      | Some v => fields_set out f v
      | None => out
      end
  end.

(** The cast loop of [normalize_fields]. *)
Definition cast_fields (kv : Dict string) : Fields :=
  fold_left cast_entry kv no_fields.

(** [normalize_fields(kv)], whole. *)
Definition normalize_kv (kv : Dict string) : Fields :=
  normalize_fields (cast_fields kv).

End Casts.

(* ------------------------------------------------------------------ *)
(** ** telegram_bot.py: /update, /setstock, /delete, /get *)






Inductive DeleteReply : Type :=
| DeleteNotFound
| Deleted (_id : Z).

(** [delete_cmd] on the id read from the command. *)
Definition delete_cmd (_id : Z) (db : Table) : DeleteReply * Table :=
  let session := SessionLocal db in
  match session_get session _id with
  | None => (DeleteNotFound, session_close session)
  | Some row =>
      let session := session_commit (session_delete session row) in
      (Deleted _id, session_close session)
  end.

(** [get_one] on the id read from the command: the row whose dict the reply
    prints, [None] for the reply [Not found]. *)
Definition get_one (_id : Z) (db : Table) : option Frame :=
  session_get (SessionLocal db) _id.

(* ------------------------------------------------------------------ *)
(** ** telegram_bot.py: the listing commands *)

(** [ORDER BY]: [before r x] says that [r] goes before [x]; rows that the
    order does not tell apart stay in table order. *)
Fixpoint insert_by {A : Type} (before : A -> A -> bool) (r : A) (l : list A)
    : list A :=
  match l with
  | [] => [r]
  | x :: l' => if before r x then r :: l else x :: insert_by before r l'
  end.

Definition order_by {A : Type} (before : A -> A -> bool) (rows : list A) : list A :=
  fold_right (insert_by before) [] rows.

(** [.asc()] and [.desc()] on an integer column. *)
Definition asc {A : Type} (col : A -> Z) (r x : A) : bool := col r <=? col x.
Definition desc {A : Type} (col : A -> Z) (r x : A) : bool := col x <=? col r.

(** [.limit(n)] for the integer [n]. *)
Definition limit_rows {A : Type} (n : Z) (rows : list A) : list A :=
  firstn (Z.to_nat n) rows.

Section Commands.

(** [int(text)] of Python; [None] stands for its [ValueError]. *)
Variable py_int : string -> option Z.

(** The limit that [recent_cmd] reads from its arguments. *)
Definition recent_limit (args : list string) : Z :=
  match args with
  | [] => 5
  | a :: _ =>
      match py_int a with
      | Some n => Z.max 1 (Z.min 50 n)
      | None => 5
      end
  end.

(** [recent_cmd]: the rows it lists (none: the reply is [No frames yet.]). *)
Definition recent_cmd (args : list string) (db : Table) : list Frame :=
  limit_rows (recent_limit args) (order_by (desc created_at) db).

(** The limit that [list_cmd] reads from its arguments. *)
Definition list_limit (args : list string) : Z :=
  match args with
  | [] => 10
  | a :: _ =>
      match py_int a with
      | Some n => Z.max 1 (Z.min 100 n)
      | None => 10
      end
  end.

(** [list_cmd]: the rows it lists (none: the reply is [No frames.]). *)
Definition list_cmd (args : list string) (db : Table) : list Frame :=
  limit_rows (list_limit args) (order_by (asc id) db).

(** The threshold that [lowstock_cmd] reads from its arguments. *)
Definition lowstock_threshold (args : list string) : Z :=
  match args with
  | [] => 5
  | a :: _ =>
      match py_int a with
      | Some n => Z.max 0 n
      | None => 5
      end
  end.

(** [lowstock_cmd]: the threshold of the reply and the rows it lists. *)
Definition lowstock_cmd (args : list string) (db : Table) : Z * list Frame :=
  let threshold := lowstock_threshold args in
  (threshold,
   limit_rows 50
     (order_by (asc stock) (filter (fun r => stock r <=? threshold) db))).

End Commands.


Definition brand_model_dec (a b : option string * string) : {a = b} + {a <> b}.
Proof. decide equality; [apply string_dec | apply option_string_dec]. Defined.

(** [func.count(Frame.id)] of the group of [key] under
    [group_by(Frame.brand, Frame.model_code)]. *)
Definition count_brand_model (key : option string * string) (db : Table) : Z :=
  sql_count (filter (fun r => if brand_model_dec (brand r, model_code r) key
                              then true else false) db).

(** [duplicates_cmd]: the groups it lists with their counts (none: the reply
    is [No duplicates detected.]).  SQL fixes no order among groups of the
    same count. *)
Definition duplicates_cmd (db : Table) : list ((option string * string) * Z) :=
  let groups :=
    map (fun key => (key, count_brand_model key db))
        (nodup brand_model_dec (map (fun r => (brand r, model_code r)) db)) in
  limit_rows 20
    (order_by (desc snd) (filter (fun g => 1 <? snd g) groups)).

(** The keys of a [Counter] in the order they were first counted. *)
Fixpoint first_seen (l : list string) : list string :=
  match l with
  | [] => []
  | x :: l' => x :: filter (fun y => negb (String.eqb y x)) (first_seen l')
  end.

(** [Counter(l).most_common(n)]: the largest counts first, equal counts in
    the order first counted. *)
Definition most_common (n : Z) (l : list string) : list (string * Z) :=
  limit_rows n
    (order_by (desc snd)
       (map (fun k => (k, Z.of_nat (count_occ string_dec l k))) (first_seen l))).

(** [m or 'unknown']. *)
Definition or_unknown (m : option string) : string :=
  match m with
  | Some s => if String.eqb s "" then "unknown" else s
  | None => "unknown"
  end.

(** [count_cmd]: the total and the top of the reply. *)
Definition count_cmd (db : Table) : Z * list (string * Z) :=
  (sql_count db, most_common 5 (map (fun r => or_unknown (material r)) db)).

(* ------------------------------------------------------------------ *)
(** ** telegram_bot.py: /export *)

Inductive ExportReply : Type :=
| NoDataToExport
| ReplyDocument (content filename : string)
| ReplyText (out : string).

(** What [export_cmd] has read from its arguments: the format, the digits
    given as limit (if any), the brand filter in lower case, the date. *)
Record ExportArgs : Type := mkExportArgs {
  format_type : string;
  limit_digits : option Z;
  brand_filter : option string;
  since_date : option Z
}.

(** [max(1, min(2000, n))], 100 without a limit. *)
Definition export_limit (a : ExportArgs) : Z :=
  match limit_digits a with
  | Some n => Z.max 1 (Z.min 2000 n)
  | None => 100
  end.

(** The filters of the query of [export_cmd]; an empty brand filter is
    falsy and adds none. *)
Definition export_where (a : ExportArgs) (r : Frame) : bool :=
  match brand_filter a with
  | Some b =>
      if String.eqb b "" then true
      else match brand r with
           | Some rb => String.eqb (lower rb) b
           | None => false
           end
  | None => true
  end
  && match since_date a with
     | Some d => d <=? created_at r
     | None => true
     end.

Definition export_rows (a : ExportArgs) (db : Table) : list Frame :=
  limit_rows (export_limit a) (order_by (desc created_at) (filter (export_where a) db)).

Section ExportCmd.

Variable str_float : Q -> string.
Variable isoformat : Z -> string.
(** [json.dump(data, buf, ensure_ascii=False, indent=2, default=str)]. *)
Variable json_dump : list (list (string * value)) -> string.

(** A line of the text formats. *)
Definition text_line (r : Frame) : string :=
  str_int (id r) ++ ": " ++ or_NoBrand (brand r) ++ " " ++ model_code r
  ++ " stock=" ++ str_int (stock r) ++ " price="
  ++ match price r with
     | Some p => if Qtruthy p then str_float p else "-"
     | None => "-"
     end.

Definition export_cmd (a : ExportArgs) (db : Table) : ExportReply :=
  let rows := export_rows a db in
  match rows with
  | [] => NoDataToExport
  | _ =>
      let n := str_int (Z.of_nat (List.length rows)) in
      if String.eqb (format_type a) "json" then
        ReplyDocument (json_dump (map (to_dict isoformat) rows))
                      ("frames_export_" ++ n ++ ".json")
      else if String.eqb (format_type a) "text" || String.eqb (format_type a) "txt" then
        let out := join (String newline "") (map text_line rows) in
        if String.eqb (format_type a) "txt" || (3500 <? Z.of_nat (String.length out))
        then ReplyDocument out ("frames_export_" ++ n ++ ".txt")
        else ReplyText out
      else
        ReplyDocument (csv_export str_float isoformat rows)
                      ("frames_export_" ++ n ++ ".csv")
  end.

End ExportCmd.

(** The text that [esc] has to put in a field. *)
Definition field_text (str_float : Q -> string) (v : value) : string :=
  match v with
  | VNone => ""
  | _ => py_str str_float v
  end.

(* ------------------------------------------------------------------ *)
(** ** telegram_bot.py: the conversation of /new *)

(** [c.isspace()] on an ASCII character. *)
Definition is_space (c : ascii) : bool :=
  let n := nat_of_ascii c in
  (((9 <=? n) && (n <=? 13)) || ((28 <=? n) && (n <=? 32)))%nat.

Fixpoint lstrip (s : string) : string :=
  match s with
  | EmptyString => EmptyString
  | String c s' => if is_space c then lstrip s' else s
  end.

Fixpoint rstrip (s : string) : string :=
  match s with
  | EmptyString => EmptyString
  | String c s' =>
      match rstrip s' with
      | EmptyString => if is_space c then EmptyString else String c EmptyString
      | t => String c t
      end
  end.

(** [s.strip()]. *)
Definition strip (s : string) : string := rstrip (lstrip s).

(** The states of the conversation; [END] is [ConversationHandler.END]. *)
Inductive ConvState : Type :=
| NEW_MODEL | NEW_BRAND | NEW_STOCK | NEW_OPTIONALS | NEW_CONFIRM | END.

(** [context.user_data]: the dict under the key [new_frame], [None] when the
    key is not there. *)
Definition UserData : Type := option Fields.

(** What a handler leaves: the next state, the user data and the table;
    [None] when the handler raises. *)
Definition Outcome : Type := option (ConvState * UserData * Table).

(** A message to the conversation: a text that is no command, or the
    command [/cancel]. *)
Inductive Message : Type :=
| Text (text : string)
| Cancel.

Section Conversation.

Variable py_int : string -> option Z.
Variable py_float : string -> option Q.
(** [shlex.split]; [None] stands for its [ValueError]. *)
Variable shlex_split : string -> option (list string).

(** [parse_kv_args]. *)
Definition parse_kv_args (text : string) : option (Dict string) :=
  option_map parse_kv_parts (shlex_split text).


Definition new_model (text : string) (ud : UserData) (db : Table) : Outcome :=
  let model := strip text in
  if String.eqb model "" then Some (NEW_MODEL, ud, db)
  else match ud with
       | Some data => Some (NEW_BRAND, Some (with_model_code data (Some model)), db)
       | None => None
       end.

Definition new_brand (text : string) (ud : UserData) (db : Table) : Outcome :=
  let brand := strip text in
  let brand := if String.eqb brand "-" then None else Some brand in
  match ud with
  | Some data => Some (NEW_STOCK, Some (with_brand data brand), db)
  | None => None
  end.

Definition new_stock (text : string) (ud : UserData) (db : Table) : Outcome :=
  let txt := strip text in
  match (if String.eqb txt "" then Some 1
         else option_map (Z.max 0) (py_int txt)) with
  | None => Some (NEW_STOCK, ud, db)
  | Some stock =>
      match ud with
      | Some data => Some (NEW_OPTIONALS, Some (with_stock data (Some stock)), db)
      | None => None
      end
  end.

Definition new_optionals (text : string) (ud : UserData) (db : Table) : Outcome :=
  let txt := strip text in
  if negb (String.eqb (lower txt) "done") then
    match parse_kv_args txt with
    | None => None
    | Some kv =>
        let norm := normalize_kv py_int py_float kv in
        match ud with
        | Some data => Some (NEW_OPTIONALS, Some (fields_update data norm), db)
        | None => None
        end
    end
  else Some (NEW_CONFIRM, ud, db).

(** The handler [new_confirm], whose branch for the answer [yes] is
    [new_confirm] above. *)
Definition new_confirm_answer (now : Z) (text : string) (ud : UserData)
    (db : Table) : Outcome :=
  let ans := lower (strip text) in
  if negb (existsb (String.eqb ans) ["yes"; "y"; "no"; "n"])
  then Some (NEW_CONFIRM, ud, db)
  else if existsb (String.eqb ans) ["no"; "n"]
  then Some (END, None, db)
  else
    let data := match ud with Some d => d | None => no_fields end in
    match new_confirm data now db with
    | (NewKeyError, _) => None
    | (_, db') => Some (END, None, db')
    end.

Definition new_cancel (ud : UserData) (db : Table) : Outcome :=
  Some (END, None, db).

(** The dispatch of [make_new_handler]: the handler of the state for a
    text, [new_cancel] for [/cancel]. *)
Definition conv_step (now : Z) (st : ConvState) (m : Message) (ud : UserData)
    (db : Table) : Outcome :=
  match st, m with
  | END, _ => Some (END, ud, db)
  | _, Cancel => new_cancel ud db
  | NEW_MODEL, Text text => new_model text ud db
  | NEW_BRAND, Text text => new_brand text ud db
  | NEW_STOCK, Text text => new_stock text ud db
  | NEW_OPTIONALS, Text text => new_optionals text ud db
  | NEW_CONFIRM, Text text => new_confirm_answer now text ud db
  end.



End Conversation.


(* ------------------------------------------------------------------ *)
(** ** Forms used in the statements *)

(** The new value of an attribute after one round of each fill loop, as a
    function of its old value. *)
Definition add_fill_value (norm : Fields) (f : field) (old : value) : value :=
  if in_None_empty_0 old then
    match lookup norm f with
    | Some v => if negb (in_None_empty v) then v else old
    | None => old
    end
  else old.

Definition new_fill_value (data : Fields) (f : field) (old : value) : value :=
  if in_None_empty_0 old then
    match lookup data f with
    | Some v => v
    | None => old
    end
  else old.


(** The frame that the create path of [add] hands to the session. *)
Definition add_new_frame (out : Fields) (mc : string) (now : Z) : Frame :=
  let norm := normalize_fields out in
  match get_stock norm with
  | None => set_stock (Frame_kwargs norm mc now) 1
  | Some _ => Frame_kwargs norm mc now
  end.

(** The text has neither of the two LIKE wildcards. *)
Definition wildcard_free (w : string) : bool :=
  negb (char_in "%" w) && negb (char_in "_" w).


(** An order that compares any two rows, and does so transitively. *)
Definition total_order {A : Type} (before : A -> A -> bool) : Prop :=
  (forall a b, before a b = false -> before b a = true) /\
  (forall a b c, before a b = true -> before b c = true -> before a c = true).

(** Every row goes before the rows listed after it. *)
Inductive ordered {A : Type} (before : A -> A -> bool) : list A -> Prop :=
| ordered_nil : ordered before []
| ordered_cons (a : A) (l : list A) :
    (forall x, In x l -> before a x = true) ->
    ordered before l -> ordered before (a :: l).

(** The pair that [duplicates_cmd] groups by. *)
Definition brand_model (r : Frame) : option string * string :=
  (brand r, model_code r).

(** The rows of a brand, their number and their stock. *)
Definition rows_of_brand (b : option string) (db : Table) : list Frame :=
  filter (fun r => if option_string_dec (brand r) b then true else false) db.

Definition count_of_brand (b : option string) (db : Table) : Z :=
  sql_count (rows_of_brand b db).

Definition stock_of_brand (b : option string) (db : Table) : Z :=
  fold_right Z.add 0 (map stock (rows_of_brand b db)).

(* ------------------------------------------------------------------ *)
(** ** Sample data *)

Definition ex_ray : Frame :=
  mkFrame 1 (Some "Ray-Ban") "RB2140" (Some "acetate") None None None
    None None None None 3 None 100.

Definition ex_oakley : Frame :=
  mkFrame 2 (Some "Oakley") "OX8046" (Some "unknown") (Some 55) None None
    (Some "black") None None (Some (120 # 1)) 2 None 150.

Definition ex_ray_dup : Frame :=
  mkFrame 3 None "rb2140" (Some "unknown") (Some 50) None None
    (Some "tortoise") None None None 4 None 300.

(** A sample given away: it has a price, and the price is zero. *)
Definition ex_free : Frame :=
  mkFrame 4 None "SAMPLE" (Some "plastic") None None None None None None
    (Some (0 # 1)) 1 None 500.

(** The frame that [prompt_add_frame] builds from the answers
    [ray-ban], [rb2140] and blanks. *)
Definition ex_prompted : Frame :=
  mkFrame 0 (Some "ray-ban") "rb2140" (Some "unknown") None None None
    None None None None 0 None 400.



Definition ex_out_zero_lens : Fields :=
  mkFields (Some "ray-ban") (Some "rb2140") None (Some 0) None None
    (Some "havana") None None None (Some 4) None.


Definition ex_notes : string :=
  "He said " ++ String dquote "hi" ++ String dquote ", then left".

Definition ex_notes_csv : string :=
  String dquote "He said " ++ String dquote (String dquote "hi") ++
  String dquote (String dquote ", then left") ++ String dquote "".

(** A stand-in for Python's float formatter, to run [stats_cmd] on
    samples. *)
Definition ex_fmt2 (q : Q) : string :=
  str_int (Qnum q / Zpos (Qden q)) ++ ".00".

(** A decimal reader, to run the cast loop on samples. *)
Definition ex_py_int (raw : string) : option Z :=
  option_map Z.of_int (NilZero.int_of_string raw).

Definition ex_py_float (raw : string) : option Q :=
  option_map inject_Z (ex_py_int raw).

(** A stand-in for Python's [str] of a float and for [isoformat], to run
    the export on samples. *)
Definition ex_str_float (q : Q) : string :=
  str_int (Qnum q / Zpos (Qden q)) ++ ".0".

Definition ex_isoformat (t : Z) : string := "T" ++ str_int t.

(* ================================================================== *)
(** * Properties *)

(* ------------------------------------------------------------------ *)
(** ** Text and keys *)

Lemma lower_or_empty (b : option string) :
  or_empty (option_map lower b) = lower (or_empty b).
Proof. destruct b; reflexivity. Qed.

Lemma same_brand_model_key (bv mv : string) (r : Frame) :
  same_brand_model bv mv r = true <-> key_of_frame r = (bv, mv).
Proof.
  unfold same_brand_model, key_of_frame.
  rewrite andb_true_iff, !String.eqb_eq, lower_or_empty.
  split.
  - intros [Hm Hb]. now rewrite Hm, Hb.
  - intros H. inversion H. now split.
Qed.

Lemma key_of_fields_normalize (out : Fields) :
  key_of_fields (normalize_fields out) = key_of_fields out.
Proof.
  unfold normalize_fields.
  destruct (get_material out) as [m|]; [|reflexivity].
  destruct (negb (in_MATERIAL_CHOICES (lower m))); reflexivity.
Qed.

Lemma normalize_fields_other (out : Fields) (f : field) :
  f <> Material -> lookup (normalize_fields out) f = lookup out f.
Proof.
  intros Hf. unfold normalize_fields.
  destruct (get_material out) as [m|]; [|reflexivity].
  destruct (negb (in_MATERIAL_CHOICES (lower m))); [|reflexivity].
  destruct f; try reflexivity. congruence.
Qed.

Lemma or_0_id (n : Z) : or_0 n = n.
Proof. unfold or_0. destruct (Z.eqb_spec n 0); congruence. Qed.

(* ------------------------------------------------------------------ *)
(** ** Attributes *)

Lemma setattr_id (r : Frame) (f : field) (v : value) : id (setattr r f v) = id r.
Proof. destruct f, v; reflexivity. Qed.

Lemma setattr_created_at (r : Frame) (f : field) (v : value) :
  created_at (setattr r f v) = created_at r.
Proof. destruct f, v; reflexivity. Qed.

Lemma getattr_setattr_other (r : Frame) (f g : field) (v : value) :
  f <> g -> getattr (setattr r f v) g = getattr r g.
Proof. intros H. destruct f, g, v; try reflexivity; congruence. Qed.

Lemma getattr_setattr_same (r : Frame) (f : field) (v : value) :
  has_type f v = true -> getattr (setattr r f v) f = v.
Proof. destruct f, v; simpl; intros H; try discriminate; reflexivity. Qed.

Lemma lookup_has_type (d : Fields) (f : field) (v : value) :
  lookup d f = Some v -> has_type f v = true.
Proof.
  destruct f; simpl;
    match goal with |- option_map _ ?x = _ -> _ => destruct x end;
    simpl; intros H; inversion H; reflexivity.
Qed.





(** A fill loop: [step] rewrites one attribute at a time, the new value of
    attribute [f] being [upd f] of the old one. *)
Section FillLoop.

Variable step : Frame -> field -> Frame.
Variable upd : field -> value -> value.
Hypothesis step_same : forall e f, getattr (step e f) f = upd f (getattr e f).
Hypothesis step_other : forall e f g, f <> g -> getattr (step e f) g = getattr e g.
Hypothesis step_id : forall e f, id (step e f) = id e.
Hypothesis step_created_at : forall e f, created_at (step e f) = created_at e.

Lemma fold_fill_other (l : list field) : forall e g,
  ~ In g l -> getattr (fold_left step l e) g = getattr e g.
Proof.
  induction l as [|f l IH]; intros e g Hg; simpl; [reflexivity|].
  rewrite IH by (intros H; apply Hg; now right).
  apply step_other. intros ->. apply Hg. now left.
Qed.

Lemma fold_fill_same (l : list field) : forall e f,
  NoDup l -> In f l ->
  getattr (fold_left step l e) f = upd f (getattr e f).
Proof.
  induction l as [|g l IH]; intros e f Hnd Hin; simpl; [contradiction|].
  inversion Hnd as [|? ? Hnotin Hnd']; subst.
  destruct Hin as [->|Hin].
  - rewrite fold_fill_other by assumption. apply step_same.
  - rewrite IH by assumption. f_equal. apply step_other.
    intros ->. contradiction.
Qed.

Lemma fold_fill_id (l : list field) : forall e, id (fold_left step l e) = id e.
Proof.
  induction l as [|f l IH]; intros e; simpl; [reflexivity|].
  now rewrite IH, step_id.
Qed.


End FillLoop.

Lemma add_fill_same norm e f :
  getattr (add_fill norm e f) f = add_fill_value norm f (getattr e f).
Proof.
  unfold add_fill, add_fill_value.
  destruct (in_None_empty_0 (getattr e f)); [|reflexivity].
  destruct (lookup norm f) as [v|] eqn:Hl; [|reflexivity].
  destruct (negb (in_None_empty v)); [|reflexivity].
  apply getattr_setattr_same. eapply lookup_has_type; eassumption.
Qed.

Lemma add_fill_other norm e f g :
  f <> g -> getattr (add_fill norm e f) g = getattr e g.
Proof.
  intros H. unfold add_fill.
  destruct (in_None_empty_0 (getattr e f)); [|reflexivity].
  destruct (lookup norm f) as [v|]; [|reflexivity].
  destruct (negb (in_None_empty v)); [|reflexivity].
  now apply getattr_setattr_other.
Qed.

Lemma add_fill_id norm e f : id (add_fill norm e f) = id e.
Proof.
  unfold add_fill.
  destruct (in_None_empty_0 (getattr e f)); [|reflexivity].
  destruct (lookup norm f) as [v|]; [|reflexivity].
  destruct (negb (in_None_empty v)); [|reflexivity].
  apply setattr_id.
Qed.

Lemma add_fill_created_at norm e f : created_at (add_fill norm e f) = created_at e.
Proof.
  unfold add_fill.
  destruct (in_None_empty_0 (getattr e f)); [|reflexivity].
  destruct (lookup norm f) as [v|]; [|reflexivity].
  destruct (negb (in_None_empty v)); [|reflexivity].
  apply setattr_created_at.
Qed.

Lemma new_fill_same data e f :
  getattr (new_fill data e f) f = new_fill_value data f (getattr e f).
Proof.
  unfold new_fill, new_fill_value.
  destruct (in_None_empty_0 (getattr e f)); [|reflexivity].
  destruct (lookup data f) as [v|] eqn:Hl; [|reflexivity].
  apply getattr_setattr_same. eapply lookup_has_type; eassumption.
Qed.

Lemma new_fill_other data e f g :
  f <> g -> getattr (new_fill data e f) g = getattr e g.
Proof.
  intros H. unfold new_fill.
  destruct (in_None_empty_0 (getattr e f)); [|reflexivity].
  destruct (lookup data f) as [v|]; [|reflexivity].
  now apply getattr_setattr_other.
Qed.

Lemma new_fill_id data e f : id (new_fill data e f) = id e.
Proof.
  unfold new_fill.
  destruct (in_None_empty_0 (getattr e f)); [|reflexivity].
  destruct (lookup data f) as [v|]; [|reflexivity].
  apply setattr_id.
Qed.





Lemma NoDup_updatable_fields : NoDup updatable_fields.
Proof. repeat constructor; simpl; intuition discriminate. Qed.


Lemma getattr_set_stock e n f : f <> Stock -> getattr (set_stock e n) f = getattr e f.
Proof. intros H. destruct f; try reflexivity. congruence. Qed.

(** What the merge path of [add] leaves in each attribute. *)
Lemma add_merge_updatable norm e f :
  In f updatable_fields ->
  getattr (add_merge norm e) f = add_fill_value norm f (getattr e f).
Proof.
  intros Hin. unfold add_merge.
  rewrite (fold_fill_same (add_fill norm) (add_fill_value norm)
             (add_fill_same norm) (add_fill_other norm))
    by (auto using NoDup_updatable_fields).
  rewrite getattr_set_stock; [reflexivity|].
  intros ->. simpl in Hin. intuition discriminate.
Qed.


Lemma add_merge_id norm e : id (add_merge norm e) = id e.
Proof.
  unfold add_merge. now rewrite (fold_fill_id _ (add_fill_id norm)).
Qed.



Lemma new_merge_updatable data e f :
  In f updatable_fields ->
  getattr (new_merge data e) f = new_fill_value data f (getattr e f).
Proof.
  intros Hin. unfold new_merge.
  rewrite (fold_fill_same (new_fill data) (new_fill_value data)
             (new_fill_same data) (new_fill_other data))
    by (auto using NoDup_updatable_fields).
  rewrite getattr_set_stock; [reflexivity|].
  intros ->. simpl in Hin. intuition discriminate.
Qed.


Lemma new_merge_id data e : id (new_merge data e) = id e.
Proof.
  unfold new_merge. now rewrite (fold_fill_id _ (new_fill_id data)).
Qed.


(* ------------------------------------------------------------------ *)
(** ** The table *)

Lemma find_none_forall {A : Type} (p : A -> bool) (l : list A) :
  (forall x, In x l -> p x = false) -> find p l = None.
Proof.
  induction l as [|a l IH]; intros H; simpl; [reflexivity|].
  rewrite (H a (or_introl eq_refl)). apply IH. intros x Hx. apply H. now right.
Qed.

Lemma find_app_none {A : Type} (p : A -> bool) (l1 l2 : list A) :
  find p l1 = None -> find p (l1 ++ l2) = find p l2.
Proof.
  induction l1 as [|a l1 IH]; simpl; [reflexivity|].
  destruct (p a); [discriminate|]. exact IH.
Qed.

Lemma find_In {A : Type} (p : A -> bool) (l : list A) (x : A) :
  find p l = Some x -> In x l /\ p x = true.
Proof. apply find_some. Qed.

Lemma next_id_fresh (db : Table) (x : Frame) : In x db -> id x < next_id db.
Proof.
  unfold next_id. induction db as [|a db IH]; [contradiction|].
  cbn [map fold_right In]. intros [->|H]; [lia|]. specialize (IH H). lia.
Qed.



(* ------------------------------------------------------------------ *)
(** ** The two paths of /add *)

Lemma normalize_fields_model_code out :
  get_model_code (normalize_fields out) = get_model_code out.
Proof.
  unfold normalize_fields. destruct (get_material out) as [m|]; [|reflexivity].
  destruct (negb (in_MATERIAL_CHOICES (lower m))); reflexivity.
Qed.

Lemma normalize_fields_brand out :
  get_brand (normalize_fields out) = get_brand out.
Proof.
  unfold normalize_fields. destruct (get_material out) as [m|]; [|reflexivity].
  destruct (negb (in_MATERIAL_CHOICES (lower m))); reflexivity.
Qed.


Lemma add_unfold out now db mc :
  get_model_code out = Some mc ->
  add out now db =
  match find (same_brand_model (lower (or_empty (get_brand out))) (lower mc)) db with
  | Some existing =>
      (UpdatedExisting (add_merge (normalize_fields out) existing) (stock existing),
       map (fun x => if id x =? id (add_merge (normalize_fields out) existing)
                     then add_merge (normalize_fields out) existing else x) db)
  | None =>
      (Added (set_id (add_new_frame out mc now) (next_id db)),
       (db ++ [set_id (add_new_frame out mc now) (next_id db)])%list)
  end.
Proof.
  intros Hmc. unfold add.
  rewrite normalize_fields_model_code, Hmc, normalize_fields_brand.
  unfold query_first, SessionLocal. cbn [working].
  destruct (find _ db) as [existing|]; [reflexivity|].
  unfold add_new_frame.
  destruct (get_stock (normalize_fields out)); reflexivity.
Qed.







(* ------------------------------------------------------------------ *)
(** ** Fill only if empty *)

Lemma new_confirm_unfold data now db mc :
  get_model_code data = Some mc ->
  new_confirm data now db =
  match find (same_brand_model (lower (or_empty (get_brand data))) (lower mc)) db with
  | Some existing =>
      (MergedIntoExisting (new_merge data existing) (stock existing),
       map (fun x => if id x =? id (new_merge data existing)
                     then new_merge data existing else x) db)
  | None =>
      (SavedNew (set_id (Frame_kwargs data mc now) (next_id db)),
       (db ++ [set_id (Frame_kwargs data mc now) (next_id db)])%list)
  end.
Proof.
  intros Hmc. unfold new_confirm. rewrite Hmc.
  unfold query_first, SessionLocal. cbn [working].
  destruct (find _ db) as [existing|]; reflexivity.
Qed.

Lemma pair_inj {A B : Type} (a c : A) (b d : B) : (a, b) = (c, d) -> a = c /\ b = d.
Proof. intros H. now inversion H. Qed.

Lemma UpdatedExisting_inj a b c d :
  UpdatedExisting a b = UpdatedExisting c d -> a = c /\ b = d.
Proof. intros H. now inversion H. Qed.

Lemma MergedIntoExisting_inj a b c d :
  MergedIntoExisting a b = MergedIntoExisting c d -> a = c /\ b = d.
Proof. intros H. now inversion H. Qed.

(** The merge path of [add] was taken on a row of the table. *)
Lemma add_updated_inv out now db merged old db' :
  add out now db = (UpdatedExisting merged old, db') ->
  exists existing,
    In existing db /\
    key_of_fields out = Some (key_of_frame existing) /\
    merged = add_merge (normalize_fields out) existing /\
    old = stock existing /\
    db' = map (fun x => if id x =? id merged then merged else x) db.
Proof.
  intros H.
  destruct (get_model_code out) as [mc|] eqn:Hmc.
  - rewrite (add_unfold _ _ _ _ Hmc) in H.
    destruct (find _ db) as [existing|] eqn:Hf; [|discriminate].
    apply find_In in Hf. destruct Hf as [Hin Hk].
    apply same_brand_model_key in Hk.
    apply pair_inj in H. destruct H as [H1 H2].
    apply UpdatedExisting_inj in H1. destruct H1 as [H1 H3].
    exists existing. split; [exact Hin|].
    split; [unfold key_of_fields; now rewrite Hmc, Hk|].
    split; [now symmetry|]. split; [now symmetry|].
    rewrite <- H1. now symmetry.
  - unfold add in H. rewrite normalize_fields_model_code, Hmc in H. discriminate.
Qed.

Lemma new_merged_inv data now db merged old db' :
  new_confirm data now db = (MergedIntoExisting merged old, db') ->
  exists existing,
    In existing db /\
    key_of_fields data = Some (key_of_frame existing) /\
    merged = new_merge data existing /\
    old = stock existing /\
    db' = map (fun x => if id x =? id merged then merged else x) db.
Proof.
  intros H.
  destruct (get_model_code data) as [mc|] eqn:Hmc.
  - rewrite (new_confirm_unfold _ _ _ _ Hmc) in H.
    destruct (find _ db) as [existing|] eqn:Hf; [|discriminate].
    apply find_In in Hf. destruct Hf as [Hin Hk].
    apply same_brand_model_key in Hk.
    apply pair_inj in H. destruct H as [H1 H2].
    apply MergedIntoExisting_inj in H1. destruct H1 as [H1 H3].
    exists existing. split; [exact Hin|].
    split; [unfold key_of_fields; now rewrite Hmc, Hk|].
    split; [now symmetry|]. split; [now symmetry|].
    rewrite <- H1. now symmetry.
  - unfold new_confirm in H. rewrite Hmc in H. discriminate.
Qed.

(** C2, as the code has it.  On the merge path of [add], an attribute of the
    fill list changes only if the row's value is empty (None, blank text or
    numeric zero) and the dict has a value for it that is neither None nor
    blank text, and then it takes that value (a numeric zero of the dict is
    copied).  On the merge path of [add] and of [new_confirm], a value of the
    row that is not empty is never overwritten. *)
Theorem upsert_fills_only_empty :
  (forall out now db merged old db',
      add out now db = (UpdatedExisting merged old, db') ->
      exists existing,
        In existing db /\ id merged = id existing /\
        forall f, In f updatable_fields ->
          (in_None_empty_0 (getattr existing f) = false ->
           getattr merged f = getattr existing f) /\
          (getattr merged f <> getattr existing f ->
           in_None_empty_0 (getattr existing f) = true /\
           exists v, lookup (normalize_fields out) f = Some v /\
                     in_None_empty v = false /\
                     getattr merged f = v)) /\
  (forall data now db merged old db',
      new_confirm data now db = (MergedIntoExisting merged old, db') ->
      exists existing,
        In existing db /\ id merged = id existing /\
        forall f, In f updatable_fields ->
          in_None_empty_0 (getattr existing f) = false ->
          getattr merged f = getattr existing f).
Proof.
  split.
  - intros out now db merged old db' H.
    destruct (add_updated_inv _ _ _ _ _ _ H) as (existing & Hin & _ & -> & _ & _).
    exists existing. split; [exact Hin|]. split; [apply add_merge_id|].
    intros f Hf. rewrite (add_merge_updatable _ _ _ Hf).
    unfold add_fill_value.
    destruct (in_None_empty_0 (getattr existing f)) eqn:He.
    + split; [discriminate|]. intros Hne. split; [reflexivity|].
      destruct (lookup (normalize_fields out) f) as [v|]; [|congruence].
      destruct (in_None_empty v) eqn:Hv; simpl in *; [congruence|].
      exists v. auto.
    + split; [reflexivity|]. congruence.
  - intros data now db merged old db' H.
    destruct (new_merged_inv _ _ _ _ _ _ H) as (existing & Hin & _ & -> & _ & _).
    exists existing. split; [exact Hin|]. split; [apply new_merge_id|].
    intros f Hf He. rewrite (new_merge_updatable _ _ _ Hf).
    unfold new_fill_value. now rewrite He.
Qed.

Lemma upsert_fills_only_empty_witness :
  exists existing,
    In existing [ex_ray] /\
    id (add_merge (normalize_fields ex_out_zero_lens) ex_ray) = id existing /\
    forall f, In f updatable_fields ->
      (in_None_empty_0 (getattr existing f) = false ->
       getattr (add_merge (normalize_fields ex_out_zero_lens) ex_ray) f
       = getattr existing f) /\
      (getattr (add_merge (normalize_fields ex_out_zero_lens) ex_ray) f
       <> getattr existing f ->
       in_None_empty_0 (getattr existing f) = true /\
       exists v, lookup (normalize_fields ex_out_zero_lens) f = Some v /\
                 in_None_empty v = false /\
                 getattr (add_merge (normalize_fields ex_out_zero_lens) ex_ray) f = v).
Proof.
  apply (proj1 upsert_fills_only_empty ex_out_zero_lens 200 [ex_ray]
           (add_merge (normalize_fields ex_out_zero_lens) ex_ray) 3
           [add_merge (normalize_fields ex_out_zero_lens) ex_ray]).
  reflexivity.
Defined.

(** C2 as stated fails: the row has no lens width, the dict gives the
    numeric zero, and [add] copies it. *)
Lemma add_copies_numeric_zero :
  exists merged db',
    add ex_out_zero_lens 200 [ex_ray] = (UpdatedExisting merged 3, db') /\
    getattr ex_ray LensWidth = VNone /\
    lookup (normalize_fields ex_out_zero_lens) LensWidth = Some (VInt 0) /\
    in_None_empty_0 (VInt 0) = true /\
    getattr merged LensWidth = VInt 0 /\
    getattr merged LensWidth <> getattr ex_ray LensWidth.
Proof.
  eexists. eexists. split; [reflexivity|].
  repeat split. discriminate.
Qed.

(* ------------------------------------------------------------------ *)
(** ** /merge *)







Lemma find_id_eq (l : Table) (i : Z) (x : Frame) :
  find (fun r => id r =? i) l = Some x -> In x l /\ id x = i.
Proof.
  intros H. apply find_some in H. destruct H as [Hin He].
  split; [exact Hin|]. now apply Z.eqb_eq.
Qed.

Lemma map_replace_ids (l : Table) (new : Frame) :
  map id (map (fun x => if id x =? id new then new else x) l) = map id l.
Proof.
  induction l as [|a l IH]; simpl; [reflexivity|].
  rewrite IH. f_equal. destruct (Z.eqb_spec (id a) (id new)); congruence.
Qed.



Lemma find_delete_same (l : Table) (i : Z) :
  find (fun r => id r =? i) (filter (fun x => negb (id x =? i)) l) = None.
Proof.
  induction l as [|a l IH]; simpl; [reflexivity|].
  destruct (id a =? i) eqn:E; simpl; [exact IH|]. now rewrite E.
Qed.

Lemma find_delete_other (l : Table) (i j : Z) :
  j <> i ->
  find (fun r => id r =? j) (filter (fun x => negb (id x =? i)) l)
  = find (fun r => id r =? j) l.
Proof.
  intros Hj. induction l as [|a l IH]; simpl; [reflexivity|].
  destruct (Z.eqb_spec (id a) i) as [E|E]; simpl.
  - assert ((id a =? j) = false) as -> by (apply Z.eqb_neq; congruence).
    exact IH.
  - now rewrite IH.
Qed.

Lemma filter_absent {A : Type} (p : A -> bool) (l : list A) :
  (forall x, In x l -> p x = false) -> filter p l = [].
Proof.
  induction l as [|a l IH]; intros H; simpl; [reflexivity|].
  rewrite (H a (or_introl eq_refl)). apply IH. intros x Hx. apply H. now right.
Qed.

Lemma filter_all {A : Type} (p : A -> bool) (l : list A) :
  (forall x, In x l -> p x = true) -> filter p l = l.
Proof.
  induction l as [|a l IH]; intros H; simpl; [reflexivity|].
  rewrite (H a (or_introl eq_refl)). f_equal. apply IH. intros x Hx. apply H. now right.
Qed.



Lemma merge_cmd_unfold sid tid db src tgt :
  sid <> tid ->
  session_get (SessionLocal db) sid = Some src ->
  session_get (SessionLocal db) tid = Some tgt ->
  merge_cmd sid tid db =
  (MergedInto sid tid (stock (merge_rows src tgt)),
   filter (fun x => negb (id x =? id src))
          (map (fun x => if id x =? id (merge_rows src tgt)
                         then merge_rows src tgt else x) db)).
Proof.
  intros Hne Hs Ht. unfold merge_cmd.
  apply Z.eqb_neq in Hne. rewrite Hne, Hs, Ht. reflexivity.
Qed.




(** C4.  [merge_cmd] on one and the same id answers that source and target
    must differ and returns the table as it was. *)
Theorem merge_cmd_same_id (a : Z) (db : Table) :
  merge_cmd a a db = (MustDiffer, db).
Proof. unfold merge_cmd. now rewrite Z.eqb_refl. Qed.




(* ------------------------------------------------------------------ *)
(** ** The two front ends and the Matching Key *)


Lemma add_frame_unfold (frame : Frame) (db : Table) :
  add_frame frame db
  = (set_id frame (next_id db), (db ++ [set_id frame (next_id db)])%list).
Proof. reflexivity. Qed.




(* ------------------------------------------------------------------ *)
(** ** The ids stay unique *)

Lemma NoDup_ids_filter (keep : Frame -> bool) (db : Table) :
  NoDup (map id db) -> NoDup (map id (filter keep db)).
Proof.
  intros Hnd. induction db as [|a db IH]; [constructor|].
  cbn [map] in Hnd. inversion Hnd as [|? ? Hnotin Hnd']; subst.
  cbn [filter]. destruct (keep a); [|now apply IH].
  cbn [map]. constructor; [|now apply IH].
  intros Hin. apply Hnotin. apply in_map_iff in Hin.
  destruct Hin as (x & Hx & Hf). apply filter_In in Hf.
  apply in_map_iff. exists x. tauto.
Qed.

Lemma NoDup_ids_insert (db : Table) (frame : Frame) :
  NoDup (map id db) ->
  NoDup (map id (db ++ [set_id frame (next_id db)])).
Proof.
  intros Hnd.
  assert (Hfresh : ~ In (next_id db) (map id db)).
  { intros Hin. apply in_map_iff in Hin. destruct Hin as (x & Hx & Hin).
    pose proof (next_id_fresh db x Hin). lia. }
  rewrite map_app. cbn [map id set_id].
  revert Hnd Hfresh. generalize (next_id db). generalize (map id db).
  intros l. induction l as [|a l IH]; intros z Hnd Hfresh; cbn [app].
  - constructor; [intros []|constructor].
  - inversion Hnd as [|? ? Hnotin Hnd']; subst. constructor.
    + intros Hin. apply in_app_or in Hin. destruct Hin as [Hin|[Hin|[]]].
      * contradiction.
      * apply Hfresh. left. now symmetry.
    + apply IH; [exact Hnd'|]. intros Hin. apply Hfresh. now right.
Qed.

(** X23.  [add], [new_confirm], [merge_cmd] and [add_frame] each leave a
    table whose ids are unique when they were given one. *)
Lemma handlers_keep_ids_unique (db : Table) :
  NoDup (map id db) ->
  (forall out now, NoDup (map id (snd (add out now db)))) /\
  (forall data now, NoDup (map id (snd (new_confirm data now db)))) /\
  (forall sid tid, NoDup (map id (snd (merge_cmd sid tid db)))) /\
  (forall frame, NoDup (map id (snd (add_frame frame db)))).
Proof.
  intros Hnd. repeat split.
  - intros out now. destruct (get_model_code out) as [mc|] eqn:Hmc.
    + rewrite (add_unfold _ _ _ _ Hmc).
      destruct (find _ db); cbn [snd].
      * now rewrite map_replace_ids.
      * now apply NoDup_ids_insert.
    + unfold add. now rewrite normalize_fields_model_code, Hmc.
  - intros data now. destruct (get_model_code data) as [mc|] eqn:Hmc.
    + rewrite (new_confirm_unfold _ _ _ _ Hmc).
      destruct (find _ db); cbn [snd].
      * now rewrite map_replace_ids.
      * now apply NoDup_ids_insert.
    + unfold new_confirm. now rewrite Hmc.
  - intros sid tid. destruct (Z.eq_dec sid tid) as [E|Hne].
    { unfold merge_cmd. apply Z.eqb_eq in E. now rewrite E. }
    destruct (session_get (SessionLocal db) sid) as [src|] eqn:Hs.
    + destruct (session_get (SessionLocal db) tid) as [tgt|] eqn:Ht.
      * rewrite (merge_cmd_unfold _ _ _ _ _ Hne Hs Ht). cbn [snd].
        apply NoDup_ids_filter. now rewrite map_replace_ids.
      * unfold merge_cmd. apply Z.eqb_neq in Hne. now rewrite Hne, Hs, Ht.
    + unfold merge_cmd. apply Z.eqb_neq in Hne. now rewrite Hne, Hs.
  - intros frame. rewrite add_frame_unfold. cbn [snd].
    now apply NoDup_ids_insert.
Qed.

(* ------------------------------------------------------------------ *)
(** ** LIKE and substrings *)

Lemma like_percent_unfold (p s : string) :
  like (String "%" p) s
  = like p s || match s with
                | EmptyString => false
                | String _ s' => like (String "%" p) s'
                end.
Proof. destruct s; reflexivity. Qed.

Lemma like_percent_all (s : string) : like "%" s = true.
Proof.
  induction s as [|c s IH]; rewrite like_percent_unfold; [reflexivity|].
  now rewrite IH, orb_true_r.
Qed.

Lemma wildcard_free_cons (c : ascii) (w : string) :
  wildcard_free (String c w) = true ->
  Ascii.eqb c "%" = false /\ Ascii.eqb c "_" = false /\ wildcard_free w = true.
Proof.
  unfold wildcard_free. cbn [char_in].
  rewrite !andb_true_iff, !negb_true_iff, !orb_false_iff. tauto.
Qed.

Lemma like_literal_prefix (w : string) :
  wildcard_free w = true ->
  forall s, like (w ++ "%") s = startswith w s.
Proof.
  induction w as [|c w IH]; intros Hw s.
  - simpl. apply like_percent_all.
  - apply wildcard_free_cons in Hw. destruct Hw as (Hp & Hu & Hw).
    change (String c w ++ "%") with (String c (w ++ "%")).
    cbn [like]. rewrite Hp, Hu.
    destruct s as [|d s]; [reflexivity|].
    simpl. now rewrite IH.
Qed.

Lemma like_contains (w : string) :
  wildcard_free w = true ->
  forall s, like ("%" ++ w ++ "%") s = contains w s.
Proof.
  intros Hw s. change ("%" ++ w ++ "%") with (String "%" (w ++ "%")).
  induction s as [|d s IH]; rewrite like_percent_unfold, like_literal_prefix by exact Hw.
  - destruct w; reflexivity.
  - rewrite IH. destruct w; reflexivity.
Qed.

Lemma lower_app (a b : string) : lower (a ++ b) = lower a ++ lower b.
Proof. induction a as [|c a IH]; simpl; [reflexivity|]. now rewrite IH. Qed.

Lemma lower_ascii_wildcard (c : ascii) :
  Ascii.eqb (lower_ascii c) "%" = Ascii.eqb c "%" /\
  Ascii.eqb (lower_ascii c) "_" = Ascii.eqb c "_".
Proof.
  destruct c as [[] [] [] [] [] [] [] []]; split; reflexivity.
Qed.

Lemma wildcard_free_lower (w : string) : wildcard_free (lower w) = wildcard_free w.
Proof.
  assert (H : forall ch, (ch = "%" \/ ch = "_")%char ->
                         char_in ch (lower w) = char_in ch w).
  { intros ch Hch. induction w as [|c w IH]; simpl; [reflexivity|].
    rewrite IH. f_equal.
    destruct (lower_ascii_wildcard c) as [Hp Hu].
    destruct Hch as [->| ->]; assumption. }
  unfold wildcard_free. rewrite !H; auto.
Qed.

(** Between two [%], a criterion without wildcards is a case-insensitive
    substring test. *)
Lemma ilike_contains (v col : string) :
  wildcard_free v = true ->
  ilike col ("%" ++ v ++ "%") = contains (lower v) (lower col).
Proof.
  intros Hv. unfold ilike. rewrite !lower_app.
  change (lower "%") with "%".
  apply like_contains. now rewrite wildcard_free_lower.
Qed.

(* ------------------------------------------------------------------ *)
(** ** The query *)

Lemma insert_desc_In (r x : Frame) (l : list Frame) :
  In x (insert_desc r l) <-> x = r \/ In x l.
Proof.
  induction l as [|a l IH]; simpl.
  - intuition.
  - destruct (created_at a <=? created_at r); simpl.
    + intuition.
    + rewrite IH. intuition.
Qed.

Lemma order_by_created_at_desc_In (x : Frame) (l : list Frame) :
  In x (order_by_created_at_desc l) <-> In x l.
Proof.
  unfold order_by_created_at_desc.
  induction l as [|a l IH]; simpl; [reflexivity|].
  rewrite insert_desc_In, IH. intuition.
Qed.

Lemma firstn_In {A : Type} (n : nat) (l : list A) (x : A) :
  In x (firstn n l) -> In x l.
Proof.
  revert l. induction n as [|n IH]; intros l; simpl; [contradiction|].
  destruct l as [|a l]; simpl; [contradiction|].
  intros [->|H]; [now left|right; now apply IH].
Qed.

Lemma query_all_In (cond : Frame -> bool) (n : nat) (db : Table) (r : Frame) :
  In r (query_all cond n db) -> In r db /\ cond r = true.
Proof.
  unfold query_all. intros H. apply firstn_In in H.
  apply (proj1 (order_by_created_at_desc_In _ _)) in H.
  now apply (proj1 (filter_In _ _ _)) in H.
Qed.

Lemma normalize_fields_outside (out : Fields) (v : string) :
  get_material out = Some v ->
  in_MATERIAL_CHOICES (lower v) = false ->
  normalize_fields out = with_material out (Some "unknown").
Proof.
  intros Hm Hv. unfold normalize_fields. now rewrite Hm, Hv.
Qed.

Lemma normalize_fields_unknown (out : Fields) :
  normalize_fields (with_material out (Some "unknown"))
  = with_material out (Some "unknown").
Proof. reflexivity. Qed.




(* ------------------------------------------------------------------ *)
(** ** CSV *)

Lemma append_assoc (a b c : string) : (a ++ b) ++ c = a ++ (b ++ c).
Proof. induction a as [|x a IH]; simpl; [reflexivity|]. now rewrite IH. Qed.

Lemma append_empty_r (a : string) : a ++ "" = a.
Proof. induction a as [|x a IH]; simpl; [reflexivity|]. now rewrite IH. Qed.




(** C8.  [esc] renders None as the empty text.  For any other value, with
    [s] its [str]: the field is [s] between double quotes with the double
    quotes of [s] doubled if and only if [s] has a comma, a double quote or
    a newline, and it is [s] itself otherwise.  The notes of the example are
    rendered as the spec says and a standard CSV reader gives them back. *)
Theorem esc_quotes_iff (str_float : Q -> string) :
  esc str_float VNone = "" /\
  (forall v, v <> VNone ->
     let s := py_str str_float v in
     (esc str_float v = String dquote (double_quotes s ++ String dquote "")
      <-> char_in comma s = true \/ char_in dquote s = true
          \/ char_in newline s = true) /\
     (char_in comma s = false -> char_in dquote s = false ->
      char_in newline s = false -> esc str_float v = s)) /\
  esc str_float (VStr ex_notes) = ex_notes_csv /\
  csv_read_record (esc str_float (VStr ex_notes)) = [ex_notes].
Proof.
  split; [reflexivity|]. split; [|split; reflexivity].
  intros v Hv s.
  assert (He : esc str_float v
               = if needs_quoting s
                 then String dquote (double_quotes s ++ String dquote "")
                 else s).
  { destruct v; try reflexivity. congruence. }
  assert (Hq : needs_quoting s
               = char_in comma s || char_in dquote s || char_in newline s).
  { unfold needs_quoting. simpl. now rewrite orb_false_r, orb_assoc. }
  rewrite He, Hq. split.
  - split.
    + destruct (char_in comma s) eqn:H1; [now left|].
      destruct (char_in dquote s) eqn:H2; [right; now left|].
      destruct (char_in newline s) eqn:H3; [right; now right|].
      simpl. intros H. exfalso.
      destruct s as [|c s']; [discriminate|].
      inversion H as [[Hc Hrest]]. subst c.
      cbn in H2. discriminate H2.
    + intros [H|[H|H]]; rewrite H; simpl; rewrite ?orb_true_r; reflexivity.
  - intros H1 H2 H3. now rewrite H1, H2, H3.
Qed.

Lemma esc_quotes_iff_witness :
  (esc ex_fmt2 (VStr "a,b") = String dquote (double_quotes "a,b" ++ String dquote "")
   <-> char_in comma "a,b" = true \/ char_in dquote "a,b" = true
       \/ char_in newline "a,b" = true) /\
  (char_in comma "a,b" = false -> char_in dquote "a,b" = false ->
   char_in newline "a,b" = false -> esc ex_fmt2 (VStr "a,b") = "a,b").
Proof.
  apply (proj1 (proj2 (esc_quotes_iff ex_fmt2)) (VStr "a,b")).
  discriminate.
Defined.

(* ------------------------------------------------------------------ *)
(** ** /stats *)

Lemma stats_texts_total (fmt2 : Q -> string) (db : Table) :
  exists avg_stock,
    stats_texts fmt2 db
    = inr (mkStatsTexts
             (or_0 (sql_count db))
             (or_0 (sql_count_distinct_brand db))
             (match first_by_desc (fun g => sql_count (snd g)) (group_by_brand db) with
              | Some g => or_NoBrand (fst g) ++ " (" ++ str_int (sql_count (snd g))
                          ++ " frames)"
              | None => "-"
              end)
             (match first_by_desc
                      (fun g => match sql_sum_stock (snd g) with Some n => n | None => 0 end)
                      (group_by_brand db) with
              | Some g => or_NoBrand (fst g) ++ " ("
                          ++ str_int (match sql_sum_stock (snd g) with
                                      | Some n => n | None => 0 end)
                          ++ " units)"
              | None => "-"
              end)
             (match sql_sum_stock db with Some n => or_0 n | None => 0 end)
             avg_stock
             (match sql_avg_price db with
              | Some a => if Qtruthy a then fmt2 a else "-"
              | None => "-"
              end)) /\
    (or_0 (sql_count db) = 0 -> avg_stock = "-").
Proof.
  unfold stats_texts.
  destruct (or_0 (sql_count db) =? 0) eqn:E.
  - eexists. split; [reflexivity|]. reflexivity.
  - unfold true_div. rewrite E. eexists. split; [reflexivity|].
    intros H. apply Z.eqb_neq in E. contradiction.
Qed.

(** C9.  On the empty table [stats_cmd] fails with no division error and
    both averages are the marker [-].  On every table the texts are produced:
    the division of the total stock by the number of rows is made only when
    that number is not zero, and the average stock is the marker when
    it is zero. *)
Theorem stats_cmd_empty (fmt2 : Q -> string) :
  stats_texts fmt2 [] = inr (mkStatsTexts 0 0 "-" "-" 0 "-" "-") /\
  (exists reply, stats_cmd fmt2 [] = inr reply) /\
  (forall db, exists t,
      stats_texts fmt2 db = inr t /\
      total t = Z.of_nat (List.length db) /\
      (total t = 0 -> avg_stock_per_frame t = "-")) /\
  (forall a b, true_div a b = inl ZeroDivisionError <-> b = 0).
Proof.
  split; [reflexivity|]. split; [eexists; reflexivity|]. split.
  - intros db. destruct (stats_texts_total fmt2 db) as (avg & Ht & Havg).
    eexists. split; [exact Ht|]. cbn [total avg_stock_per_frame].
    split; [apply or_0_id|exact Havg].
  - intros a b. unfold true_div. destruct (Z.eqb_spec b 0); split; intros H;
      try reflexivity; try assumption; try discriminate; contradiction.
Qed.






(* ================================================================== *)
(** * Further properties of the handlers *)

(* ------------------------------------------------------------------ *)
(** ** Dicts and the parsing of arguments *)

Lemma lower_ascii_idem (c : ascii) : lower_ascii (lower_ascii c) = lower_ascii c.
Proof. destruct c as [[] [] [] [] [] [] [] []]; reflexivity. Qed.

Lemma lower_idem (s : string) : lower (lower s) = lower s.
Proof.
  induction s as [|c s IH]; [reflexivity|].
  cbn [lower]. now rewrite lower_ascii_idem, IH.
Qed.

Lemma dict_has_false {V : Type} (d : Dict V) (k : string) :
  dict_has d k = false -> ~ In k (map fst d).
Proof.
  unfold dict_has. induction d as [|[k' v'] d IH]; cbn [existsb map fst In].
  - intros _ [].
  - intros H. apply orb_false_iff in H. destruct H as [Hk Hd].
    intros [E|Hin]; [|now apply IH].
    subst k'. now rewrite String.eqb_refl in Hk.
Qed.

Lemma dict_set_keys {V : Type} (d : Dict V) (k : string) (v : V) :
  map fst (dict_set d k v)
  = if dict_has d k then map fst d else (map fst d ++ [k])%list.
Proof.
  unfold dict_set. destruct (dict_has d k).
  - rewrite map_map. apply map_ext_in. intros [k' v'] _. cbn [fst].
    destruct (String.eqb_spec k' k); [now subst|reflexivity].
  - now rewrite map_app.
Qed.

Lemma dict_set_NoDup {V : Type} (d : Dict V) (k : string) (v : V) :
  NoDup (map fst d) -> NoDup (map fst (dict_set d k v)).
Proof.
  intros Hnd. rewrite dict_set_keys.
  destruct (dict_has d k) eqn:Hh; [exact Hnd|].
  apply dict_has_false in Hh.
  induction (map fst d) as [|a l IH]; cbn [app].
  - constructor; [intros []|constructor].
  - inversion Hnd as [|? ? Hnotin Hnd']; subst. constructor.
    + intros Hin. apply in_app_or in Hin. destruct Hin as [Hin|[Hin|[]]].
      * contradiction.
      * apply Hh. now left.
    + apply IH; [exact Hnd'|]. intros Hin. apply Hh. now right.
Qed.

Lemma dict_lookup_set_same {V : Type} (d : Dict V) (k : string) (v : V) :
  dict_lookup (dict_set d k v) k = Some v.
Proof.
  unfold dict_lookup, dict_set, dict_has.
  induction d as [|[k' v'] d IH]; cbn [existsb fst].
  - cbn. now rewrite String.eqb_refl.
  - destruct (String.eqb_spec k' k) as [E|E]; cbn [orb].
    + cbn [map find fst]. rewrite E, String.eqb_refl. cbn [fst].
      now rewrite String.eqb_refl.
    + destruct (existsb (fun kv => String.eqb (fst kv) k) d) eqn:Hd.
      * cbn [map find fst]. apply String.eqb_neq in E. rewrite E. cbn [fst].
        rewrite E. exact IH.
      * cbn [app find fst]. apply String.eqb_neq in E. rewrite E. exact IH.
Qed.

Lemma dict_lookup_set_other {V : Type} (d : Dict V) (k k' : string) (v : V) :
  k' <> k -> dict_lookup (dict_set d k v) k' = dict_lookup d k'.
Proof.
  intros Hne. unfold dict_lookup, dict_set. f_equal.
  destruct (dict_has d k).
  - induction d as [|[k0 v0] d IH]; [reflexivity|].
    cbn [map find fst].
    destruct (String.eqb_spec k0 k) as [E|E]; cbn [fst].
    + subst k0. apply not_eq_sym in Hne. apply String.eqb_neq in Hne.
      rewrite Hne. exact IH.
    + destruct (String.eqb k0 k'); [reflexivity|exact IH].
  - induction d as [|[k0 v0] d IH]; cbn [app find fst].
    + apply not_eq_sym in Hne. apply String.eqb_neq in Hne. now rewrite Hne.
    + destruct (String.eqb k0 k'); [reflexivity|exact IH].
Qed.

Lemma dict_set_key_in {V : Type} (d : Dict V) (k : string) (v : V) (x : string) :
  In x (map fst (dict_set d k v)) -> x = k \/ In x (map fst d).
Proof.
  rewrite dict_set_keys. destruct (dict_has d k); [now right|].
  intros Hin. apply in_app_or in Hin. destruct Hin as [Hin|[Hin|[]]]; auto.
Qed.

(** One more part at the end of the parts. *)
Lemma parse_kv_parts_snoc (parts : list string) (part : string) :
  parse_kv_parts (parts ++ [part])
  = match split_eq part with
    | Some (k, v) => dict_set (parse_kv_parts parts) (lower k) v
    | None => parse_kv_parts parts
    end.
Proof. unfold parse_kv_parts. now rewrite fold_left_app. Qed.

Lemma parse_kv_parts_keys (parts : list string) :
  NoDup (map fst (parse_kv_parts parts)) /\
  forall k, In k (map fst (parse_kv_parts parts)) -> lower k = k.
Proof.
  induction parts as [|part parts IH] using rev_ind.
  - split; [constructor|intros k []].
  - rewrite parse_kv_parts_snoc. destruct IH as [Hnd Hlow].
    destruct (split_eq part) as [[k v]|]; [|now split].
    split; [now apply dict_set_NoDup|].
    intros x Hx. apply dict_set_key_in in Hx.
    destruct Hx as [->|Hx]; [apply lower_idem|now apply Hlow].
Qed.

(** X1.  [parse_kv_args] on the parts of a command: every key of the dict
    is in lower case and is there once; a part without equals sign adds
    nothing; and the value of a key is the value of the last part that has
    this key, whatever the case the parts write it in. *)
Theorem parse_kv_parts_last_wins :
  (forall parts,
      NoDup (map fst (parse_kv_parts parts)) /\
      forall k, In k (map fst (parse_kv_parts parts)) -> lower k = k) /\
  (forall parts part,
      split_eq part = None ->
      parse_kv_parts (parts ++ [part]) = parse_kv_parts parts) /\
  (forall parts part rest k v,
      split_eq part = Some (k, v) ->
      (forall p k' v', In p rest -> split_eq p = Some (k', v') ->
                       lower k' <> lower k) ->
      dict_lookup (parse_kv_parts (parts ++ part :: rest)) (lower k) = Some v).
Proof.
  split; [exact parse_kv_parts_keys|]. split.
  - intros parts part H. now rewrite parse_kv_parts_snoc, H.
  - intros parts part rest k v Hs Hrest.
    induction rest as [|p rest IH] using rev_ind.
    + now rewrite parse_kv_parts_snoc, Hs, dict_lookup_set_same.
    + replace (parts ++ part :: rest ++ [p])%list
        with ((parts ++ part :: rest) ++ [p])%list
        by (now rewrite <- app_assoc).
      rewrite parse_kv_parts_snoc.
      assert (IH' : dict_lookup (parse_kv_parts (parts ++ part :: rest)) (lower k)
                    = Some v).
      { apply IH. intros q k' v' Hq. apply Hrest. apply in_or_app. now left. }
      destruct (split_eq p) as [[k' v']|] eqn:Hp; [|exact IH'].
      rewrite dict_lookup_set_other; [exact IH'|].
      apply not_eq_sym. apply (Hrest p k' v'); [|exact Hp].
      apply in_or_app. right. now left.
Qed.

Lemma parse_kv_parts_last_wins_witness :
  dict_lookup (parse_kv_parts (["Model=RB1"; "stock=2"] ++ "MODEL=RB2" :: ["color=black"; "x"]))
              (lower "MODEL")
  = Some "RB2".
Proof.
  apply (proj2 (proj2 parse_kv_parts_last_wins)
           ["Model=RB1"; "stock=2"] "MODEL=RB2" ["color=black"; "x"] "MODEL" "RB2").
  - reflexivity.
  - intros p k' v' [<-|[<-|[]]] H; vm_compute in H; inversion H; discriminate.
Defined.

(* ------------------------------------------------------------------ *)
(** ** The cast loop and the material *)

(** X2.  After [normalize_fields] the material of the dict, when there is
    one, is in lower case one of [MATERIAL_CHOICES]; no other entry is
    touched; and normalising a normalised dict changes nothing. *)
Theorem normalize_fields_material_closed :
  (forall out m, get_material (normalize_fields out) = Some m ->
                 in_MATERIAL_CHOICES (lower m) = true) /\
  (forall out f, f <> Material ->
                 lookup (normalize_fields out) f = lookup out f) /\
  (forall out, normalize_fields (normalize_fields out) = normalize_fields out).
Proof.
  split; [|split].
  - intros out m. unfold normalize_fields.
    destruct (get_material out) as [m0|] eqn:Hm; [|now rewrite Hm].
    destruct (in_MATERIAL_CHOICES (lower m0)) eqn:Hc; cbn [negb].
    + rewrite Hm. intros H. inversion H. now subst.
    + cbn. intros H. inversion H. reflexivity.
  - intros out f Hf. now apply normalize_fields_other.
  - intros out. destruct (get_material out) as [m0|] eqn:Hm.
    + destruct (in_MATERIAL_CHOICES (lower m0)) eqn:Hc.
      * assert (H : normalize_fields out = out)
          by (unfold normalize_fields; now rewrite Hm, Hc).
        now rewrite !H.
      * rewrite (normalize_fields_outside _ _ Hm Hc).
        apply normalize_fields_unknown.
    + assert (H : normalize_fields out = out)
        by (unfold normalize_fields; now rewrite Hm).
      now rewrite !H.
Qed.

Lemma dict_lookup_In {V : Type} (d : Dict V) (k : string) (x : V) :
  dict_lookup d k = Some x -> In x (map snd d).
Proof.
  unfold dict_lookup. destruct (find _ d) as [kv|] eqn:Hf; [|discriminate].
  cbn. intros H. inversion H. subst. apply find_some in Hf.
  apply in_map. tauto.
Qed.

Lemma lookup_fields_set_same (out : Fields) (f : field) (v : value) :
  has_type f v = true -> v <> VNone -> lookup (fields_set out f v) f = Some v.
Proof.
  destruct f, v; cbn; intros H Hn; try discriminate; try reflexivity; congruence.
Qed.

Lemma lookup_fields_set_other (out : Fields) (f g : field) (v : value) :
  f <> g -> lookup (fields_set out f v) g = lookup out g.
Proof. intros H. destruct f, g, v; try reflexivity; congruence. Qed.

Lemma FIELD_MAP_typed py_int py_float (k raw : string) (f : field) (c : caster)
    (v : value) :
  dict_lookup FIELD_MAP k = Some (f, c) ->
  cast py_int py_float c raw = Some v ->
  has_type f v = true /\ v <> VNone.
Proof.
  intros Hk Hc. apply dict_lookup_In in Hk. cbn in Hk.
  repeat (destruct Hk as [Hk|Hk];
          [inversion Hk; subst; cbn in Hc;
           try (destruct (py_int raw); [|discriminate]);
           try (destruct (py_float raw); [|discriminate]);
           cbn in Hc; inversion Hc; split; [reflexivity|discriminate] |]).
  contradiction.
Qed.

Lemma cast_fields_snoc py_int py_float (kv : Dict string) (e : string * string) :
  cast_fields py_int py_float (kv ++ [e])
  = cast_entry py_int py_float (cast_fields py_int py_float kv) e.
Proof. unfold cast_fields. now rewrite fold_left_app. Qed.

(** X3.  The cast loop of [normalize_fields]: an entry whose key is not in
    [FIELD_MAP] or whose value its caster refuses is skipped and the other
    entries count as if it were not there; an entry that is accepted sets
    its attribute (the alias keys write the same attribute) and leaves the
    other attributes as the entries before it made them. *)
Theorem cast_fields_entries (py_int : string -> option Z)
    (py_float : string -> option Q) :
  (forall kv1 kv2 k raw,
      dict_lookup FIELD_MAP k = None \/
      (exists f c, dict_lookup FIELD_MAP k = Some (f, c) /\
                   cast py_int py_float c raw = None) ->
      cast_fields py_int py_float (kv1 ++ (k, raw) :: kv2)
      = cast_fields py_int py_float (kv1 ++ kv2)) /\
  (forall kv k raw f c v,
      dict_lookup FIELD_MAP k = Some (f, c) ->
      cast py_int py_float c raw = Some v ->
      lookup (cast_fields py_int py_float (kv ++ [(k, raw)])) f = Some v /\
      forall g, g <> f ->
                lookup (cast_fields py_int py_float (kv ++ [(k, raw)])) g
                = lookup (cast_fields py_int py_float kv) g).
Proof.
  split.
  - intros kv1 kv2 k raw H. unfold cast_fields.
    rewrite !fold_left_app. cbn [fold_left]. f_equal.
    unfold cast_entry. cbn [fst snd].
    destruct H as [H|(f & c & H & Hc)]; rewrite H; [reflexivity|].
    now rewrite Hc.
  - intros kv k raw f c v Hk Hc.
    destruct (FIELD_MAP_typed _ _ _ _ _ _ _ Hk Hc) as [Ht Hn].
    rewrite cast_fields_snoc. unfold cast_entry. cbn [fst snd].
    rewrite Hk, Hc. split.
    + now apply lookup_fields_set_same.
    + intros g Hg. apply lookup_fields_set_other. congruence.
Qed.

Lemma cast_fields_entries_witness :
  cast_fields ex_py_int ex_py_float
    ([("model", "RB1")] ++ ("lens", "wide") :: [("stock", "3")])
  = cast_fields ex_py_int ex_py_float ([("model", "RB1")] ++ [("stock", "3")]).
Proof.
  apply (proj1 (cast_fields_entries ex_py_int ex_py_float)).
  right. exists LensWidth, to_int. split; reflexivity.
Defined.

(* ------------------------------------------------------------------ *)
(** ** /update, /setstock and /delete *)











Lemma filter_drop_fresh (db : Table) (frame : Frame) :
  filter (fun x => negb (id x =? next_id db)) (db ++ [set_id frame (next_id db)])
  = db.
Proof.
  rewrite filter_app. cbn [filter id set_id]. rewrite Z.eqb_refl. cbn [negb].
  rewrite app_nil_r. apply filter_all. intros x Hx.
  apply negb_true_iff, Z.eqb_neq. pose proof (next_id_fresh db x Hx). lia.
Qed.

(** X6.  [delete_cmd] on an id that resolves removes that row: the id no
    longer resolves and every other id resolves as before; on an id that
    does not resolve it leaves the table as it was.  Deleting the row that
    [add_frame] has just added gives back the table from before. *)
Theorem delete_cmd_removes :
  (forall i db,
      session_get (SessionLocal db) i = None ->
      delete_cmd i db = (DeleteNotFound, db)) /\
  (forall i db row,
      session_get (SessionLocal db) i = Some row ->
      exists db',
        delete_cmd i db = (Deleted i, db') /\
        session_get (SessionLocal db') i = None /\
        (forall j, j <> i ->
                   session_get (SessionLocal db') j = session_get (SessionLocal db) j)) /\
  (forall frame db,
      delete_cmd (id (fst (add_frame frame db))) (snd (add_frame frame db))
      = (Deleted (next_id db), db)).
Proof.
  split; [|split].
  - intros i db Hg. unfold delete_cmd. now rewrite Hg.
  - intros i db row Hg.
    assert (Hi : id row = i).
    { unfold session_get, SessionLocal in Hg. cbn [working] in Hg.
      now apply find_id_eq in Hg. }
    eexists. split.
    { unfold delete_cmd. rewrite Hg. reflexivity. }
    unfold session_get, session_close, session_commit, session_delete, SessionLocal.
    cbn [working committed]. rewrite Hi. split.
    + apply find_delete_same.
    + intros j Hj. now apply find_delete_other.
  - intros frame db. rewrite add_frame_unfold. cbn [fst snd id set_id].
    assert (Hg : session_get (SessionLocal (db ++ [set_id frame (next_id db)]))
                             (next_id db)
                 = Some (set_id frame (next_id db))).
    { unfold session_get, SessionLocal. cbn [working].
      rewrite find_app_none.
      - cbn [find id set_id]. now rewrite Z.eqb_refl.
      - apply find_none_forall. intros x Hx. apply Z.eqb_neq.
        pose proof (next_id_fresh db x Hx). lia. }
    unfold delete_cmd. rewrite Hg.
    unfold session_close, session_commit, session_delete, SessionLocal.
    cbn [working committed id set_id]. now rewrite filter_drop_fresh.
Qed.

Lemma delete_cmd_removes_witness :
  exists db',
    delete_cmd 1 [ex_ray; ex_oakley] = (Deleted 1, db') /\
    session_get (SessionLocal db') 1 = None /\
    (forall j, j <> 1 ->
               session_get (SessionLocal db') j
               = session_get (SessionLocal [ex_ray; ex_oakley]) j).
Proof.
  apply (proj1 (proj2 delete_cmd_removes) 1 [ex_ray; ex_oakley] ex_ray).
  reflexivity.
Defined.

(* ------------------------------------------------------------------ *)
(** ** The Matching Key stays unique under the bot's adds *)





(* ------------------------------------------------------------------ *)
(** ** Ordering and limiting *)

Lemma insert_by_In {A : Type} (before : A -> A -> bool) (r x : A) (l : list A) :
  In x (insert_by before r l) <-> x = r \/ In x l.
Proof.
  induction l as [|a l IH]; cbn [insert_by].
  - cbn. intuition.
  - destruct (before r a); cbn [In]; [intuition|].
    rewrite IH. intuition.
Qed.

Lemma order_by_In {A : Type} (before : A -> A -> bool) (x : A) (l : list A) :
  In x (order_by before l) <-> In x l.
Proof.
  unfold order_by. induction l as [|a l IH]; cbn [fold_right]; [reflexivity|].
  rewrite insert_by_In, IH. cbn. intuition.
Qed.

Lemma insert_by_length {A : Type} (before : A -> A -> bool) (r : A) (l : list A) :
  List.length (insert_by before r l) = S (List.length l).
Proof.
  induction l as [|a l IH]; cbn [insert_by]; [reflexivity|].
  destruct (before r a); cbn [List.length]; [reflexivity|]. now rewrite IH.
Qed.

Lemma order_by_length {A : Type} (before : A -> A -> bool) (l : list A) :
  List.length (order_by before l) = List.length l.
Proof.
  unfold order_by. induction l as [|a l IH]; cbn [fold_right]; [reflexivity|].
  rewrite insert_by_length. cbn [List.length]. now rewrite IH.
Qed.

Lemma asc_total_order {A : Type} (col : A -> Z) : total_order (asc col).
Proof.
  unfold total_order, asc. split.
  - intros a b H. apply Z.leb_gt in H. apply Z.leb_le. lia.
  - intros a b c H1 H2. apply Z.leb_le in H1, H2. apply Z.leb_le. lia.
Qed.

Lemma desc_total_order {A : Type} (col : A -> Z) : total_order (desc col).
Proof.
  unfold total_order, desc. split.
  - intros a b H. apply Z.leb_gt in H. apply Z.leb_le. lia.
  - intros a b c H1 H2. apply Z.leb_le in H1, H2. apply Z.leb_le. lia.
Qed.

Lemma insert_by_ordered {A : Type} (before : A -> A -> bool) (r : A) (l : list A) :
  total_order before -> ordered before l -> ordered before (insert_by before r l).
Proof.
  intros [Htot Htrans] Hl. induction Hl as [|a l Ha Hl IH]; cbn [insert_by].
  - constructor; [intros x []|constructor].
  - destruct (before r a) eqn:E.
    + constructor; [|now constructor].
      intros x [<-|Hx]; [exact E|]. apply (Htrans r a x E). now apply Ha.
    + constructor; [|exact IH].
      intros x Hx. apply insert_by_In in Hx. destruct Hx as [->|Hx].
      * now apply Htot.
      * now apply Ha.
Qed.

Lemma order_by_ordered {A : Type} (before : A -> A -> bool) (l : list A) :
  total_order before -> ordered before (order_by before l).
Proof.
  intros Ht. unfold order_by. induction l as [|a l IH]; cbn [fold_right].
  - constructor.
  - now apply insert_by_ordered.
Qed.

Lemma firstn_ordered {A : Type} (before : A -> A -> bool) (n : nat) (l : list A) :
  ordered before l -> ordered before (firstn n l).
Proof.
  intros Hl. revert n. induction Hl as [|a l Ha Hl IH]; intros n.
  - rewrite firstn_nil. constructor.
  - destruct n as [|n]; cbn [firstn]; [constructor|].
    constructor; [|apply IH]. intros x Hx. apply Ha.
    revert Hx. clear. revert l. induction n as [|n IHn]; intros l; cbn [firstn].
    + intros [].
    + destruct l as [|b l]; [intros []|]. cbn [In].
      intros [->|H]; [now left|right; now apply IHn].
Qed.

Lemma limit_rows_In {A : Type} (n : Z) (l : list A) (x : A) :
  In x (limit_rows n l) -> In x l.
Proof.
  unfold limit_rows. generalize (Z.to_nat n). intros k. revert l.
  induction k as [|k IH]; intros l; cbn [firstn]; [intros []|].
  destruct l as [|a l]; [intros []|]. cbn [In].
  intros [->|H]; [now left|right; now apply IH].
Qed.

Lemma limit_rows_length {A : Type} (n : Z) (l : list A) :
  0 <= n -> Z.of_nat (List.length (limit_rows n l)) <= n.
Proof.
  intros Hn. unfold limit_rows.
  pose proof (firstn_le_length (Z.to_nat n) l). lia.
Qed.

Lemma limit_rows_all {A : Type} (n : Z) (l : list A) :
  Z.of_nat (List.length l) <= n -> limit_rows n l = l.
Proof.
  intros H. unfold limit_rows. apply firstn_all2. lia.
Qed.

Lemma limit_rows_nil_iff {A : Type} (n : Z) (l : list A) :
  1 <= n -> (limit_rows n l = [] <-> l = []).
Proof.
  intros Hn. unfold limit_rows.
  destruct (Z.to_nat n) as [|k] eqn:E; [lia|].
  destruct l as [|a l]; cbn [firstn]; split; intros H;
    try reflexivity; discriminate.
Qed.

Lemma order_by_nil_iff {A : Type} (before : A -> A -> bool) (l : list A) :
  order_by before l = [] <-> l = [].
Proof.
  split; intros H.
  - apply length_zero_iff_nil. rewrite <- (order_by_length before), H. reflexivity.
  - now subst.
Qed.

Lemma order_by_created_at_desc_eq (rows : list Frame) :
  order_by_created_at_desc rows = order_by (desc created_at) rows.
Proof.
  unfold order_by_created_at_desc, order_by.
  induction rows as [|r rows IH]; cbn [fold_right]; [reflexivity|].
  rewrite IH. generalize (fold_right (insert_by (desc created_at)) [] rows).
  intros l. induction l as [|x l IHl]; cbn [insert_desc insert_by]; [reflexivity|].
  unfold desc at 1. now rewrite IHl.
Qed.

Lemma query_all_eq (cond : Frame -> bool) (n : nat) (db : Table) :
  query_all cond n db
  = limit_rows (Z.of_nat n) (order_by (desc created_at) (filter cond db)).
Proof.
  unfold query_all, limit_rows. now rewrite Nat2Z.id, order_by_created_at_desc_eq.
Qed.

(* ------------------------------------------------------------------ *)
(** ** What the searches return *)


Lemma sql_eq_int (col : value) (z : Z) : sql_eq col (VInt z) = true -> col = VInt z.
Proof.
  destruct col; cbn; try discriminate. intros H. apply Z.eqb_eq in H. now subst.
Qed.


(** X9.  Every row that [search_frames] of [main.py] returns is a row of
    the table; with a lower bound, an upper bound or a lens width among the
    filters, the row has a price within the bounds and that lens width (a
    row without price or without lens width is left out); with a text filter
    free of LIKE wildcards, the attribute has the text in it, whatever the
    case.  At most 100 rows come back, newest first. *)
Theorem search_frames_returns (filters : Filters) (db : Table) :
  (forall r, In r (search_frames filters db) ->
     In r db /\
     (forall m, filter_min_price filters = Some m ->
                exists p, price r = Some p /\ (m <= p)%Q) /\
     (forall m, filter_max_price filters = Some m ->
                exists p, price r = Some p /\ (p <= m)%Q) /\
     (forall w, filter_lens_width filters = Some w -> lens_width r = Some w) /\
     (forall f v, In f text_fields -> filters_text filters f = Some v ->
                  wildcard_free v = true ->
                  exists s, getattr r f = VStr s /\
                            contains (lower v) (lower s) = true)) /\
  (List.length (search_frames filters db) <= 100)%nat /\
  ordered (desc created_at) (search_frames filters db).
Proof.
  unfold search_frames. split; [|split].
  - intros r Hr. apply query_all_In in Hr. destruct Hr as [Hin Hc].
    split; [exact Hin|]. unfold search_frames_where in Hc.
    apply andb_true_iff in Hc. destruct Hc as [Hc Hmax].
    apply andb_true_iff in Hc. destruct Hc as [Hc Hmin].
    apply andb_true_iff in Hc. destruct Hc as [Hf Hlens].
    rewrite forallb_forall in Hf.
    split; [|split; [|split]].
    + intros m Hm. rewrite Hm in Hmin. unfold sql_price_ge in Hmin.
      destruct (price r) as [p|]; [|discriminate].
      exists p. split; [reflexivity|]. now apply Qle_bool_iff.
    + intros m Hm. rewrite Hm in Hmax. unfold sql_price_le in Hmax.
      destruct (price r) as [p|]; [|discriminate].
      exists p. split; [reflexivity|]. now apply Qle_bool_iff.
    + intros w Hw. rewrite Hw in Hlens. apply sql_eq_int in Hlens.
      destruct (lens_width r); cbn in Hlens; inversion Hlens. reflexivity.
    + intros f v Hin' Hl Hwf. specialize (Hf f Hin'). cbn beta in Hf.
      rewrite Hl in Hf. unfold sql_ilike in Hf.
      destruct (getattr r f) as [|s| |]; try discriminate.
      exists s. split; [reflexivity|]. now rewrite ilike_contains in Hf.
  - unfold query_all. apply firstn_le_length.
  - rewrite query_all_eq. unfold limit_rows. apply firstn_ordered.
    apply order_by_ordered, desc_total_order.
Qed.

(* ------------------------------------------------------------------ *)
(** ** The listing commands *)

(** X10.  [recent_cmd] and [list_cmd]: whatever the argument, the limit is
    between 1 and 50 (between 1 and 100 for [list_cmd]); the rows listed are
    rows of the table, no more than the limit, the newest first (by rising
    id for [list_cmd]); nothing is listed only if the table is empty; and a
    table of no more rows than the limit is listed whole. *)
Theorem recent_and_list_cmd (py_int : string -> option Z) (args : list string)
    (db : Table) :
  (1 <= recent_limit py_int args <= 50 /\
   (forall r, In r (recent_cmd py_int args db) -> In r db) /\
   Z.of_nat (List.length (recent_cmd py_int args db)) <= recent_limit py_int args /\
   ordered (desc created_at) (recent_cmd py_int args db) /\
   (recent_cmd py_int args db = [] <-> db = []) /\
   (Z.of_nat (List.length db) <= recent_limit py_int args ->
    forall r, In r db -> In r (recent_cmd py_int args db))) /\
  (1 <= list_limit py_int args <= 100 /\
   (forall r, In r (list_cmd py_int args db) -> In r db) /\
   Z.of_nat (List.length (list_cmd py_int args db)) <= list_limit py_int args /\
   ordered (asc id) (list_cmd py_int args db) /\
   (list_cmd py_int args db = [] <-> db = []) /\
   (Z.of_nat (List.length db) <= list_limit py_int args ->
    forall r, In r db -> In r (list_cmd py_int args db))).
Proof.
  assert (Hr : 1 <= recent_limit py_int args <= 50).
  { unfold recent_limit. destruct args as [|a args]; [lia|].
    destruct (py_int a); lia. }
  assert (Hl : 1 <= list_limit py_int args <= 100).
  { unfold list_limit. destruct args as [|a args]; [lia|].
    destruct (py_int a); lia. }
  split.
  - unfold recent_cmd. split; [exact Hr|]. split; [|split; [|split; [|split]]].
    + intros r H. apply limit_rows_In in H. now apply order_by_In in H.
    + apply limit_rows_length. lia.
    + unfold limit_rows. apply firstn_ordered.
      apply order_by_ordered, desc_total_order.
    + rewrite limit_rows_nil_iff by lia. apply order_by_nil_iff.
    + intros Hlen r Hin. rewrite limit_rows_all.
      * now apply order_by_In.
      * now rewrite order_by_length.
  - unfold list_cmd. split; [exact Hl|]. split; [|split; [|split; [|split]]].
    + intros r H. apply limit_rows_In in H. now apply order_by_In in H.
    + apply limit_rows_length. lia.
    + unfold limit_rows. apply firstn_ordered.
      apply order_by_ordered, asc_total_order.
    + rewrite limit_rows_nil_iff by lia. apply order_by_nil_iff.
    + intros Hlen r Hin. rewrite limit_rows_all.
      * now apply order_by_In.
      * now rewrite order_by_length.
Qed.

(** X11.  [lowstock_cmd]: the threshold is never negative; every row listed
    is a row of the table whose stock is at most the threshold; the rows
    come by rising stock, no more than 50; and when no more than 50 rows
    are that low, each of them is listed. *)
Theorem lowstock_cmd_lists (py_int : string -> option Z) (args : list string)
    (db : Table) :
  0 <= fst (lowstock_cmd py_int args db) /\
  (forall r, In r (snd (lowstock_cmd py_int args db)) ->
             In r db /\ stock r <= fst (lowstock_cmd py_int args db)) /\
  (List.length (snd (lowstock_cmd py_int args db)) <= 50)%nat /\
  ordered (asc stock) (snd (lowstock_cmd py_int args db)) /\
  (Z.of_nat (List.length
               (filter (fun r => stock r <=? fst (lowstock_cmd py_int args db)) db))
   <= 50 ->
   forall r, In r db -> stock r <= fst (lowstock_cmd py_int args db) ->
             In r (snd (lowstock_cmd py_int args db))).
Proof.
  unfold lowstock_cmd. cbn [fst snd].
  split; [|split; [|split; [|split]]].
  - unfold lowstock_threshold. destruct args as [|a args]; [lia|].
    destruct (py_int a); lia.
  - intros r H. apply limit_rows_In in H. apply order_by_In in H.
    apply filter_In in H. destruct H as [Hin Hs]. split; [exact Hin|].
    now apply Z.leb_le.
  - unfold limit_rows. apply firstn_le_length.
  - unfold limit_rows. apply firstn_ordered.
    apply order_by_ordered, asc_total_order.
  - intros Hlen r Hin Hs. rewrite limit_rows_all.
    + apply order_by_In. apply filter_In. split; [exact Hin|]. now apply Z.leb_le.
    + rewrite order_by_length. lia.
Qed.

(* ------------------------------------------------------------------ *)
(** ** /duplicates *)

Lemma key_of_brand_model (a b : Frame) :
  brand_model a = brand_model b -> key_of_frame a = key_of_frame b.
Proof.
  unfold brand_model, key_of_frame. intros H. inversion H as [[Hb Hm]].
  now rewrite Hb, Hm.
Qed.

Lemma count_brand_model_unique (db : Table) (key : option string * string) :
  NoDup (map key_of_frame db) -> count_brand_model key db <= 1.
Proof.
  unfold count_brand_model, sql_count. intros Hnd.
  induction db as [|a db IH]; cbn [filter List.length]; [lia|].
  cbn [map] in Hnd. inversion Hnd as [|? ? Hnotin Hnd']; subst.
  destruct (brand_model_dec (brand a, model_code a) key) as [E|E].
  - rewrite filter_absent; [cbn; lia|].
    intros x Hx. destruct (brand_model_dec (brand x, model_code x) key) as [Ex|Ex];
      [|reflexivity].
    exfalso. apply Hnotin.
    replace (key_of_frame a) with (key_of_frame x).
    + now apply in_map.
    + apply key_of_brand_model. unfold brand_model. congruence.
  - now apply IH.
Qed.

Lemma count_brand_model_pos (db : Table) (key : option string * string) :
  1 <= count_brand_model key db ->
  exists r, In r db /\ brand_model r = key.
Proof.
  unfold count_brand_model, sql_count. intros H.
  destruct (filter _ db) as [|r l] eqn:Hf; [cbn in H; lia|].
  assert (Hin : In r (filter (fun r => if brand_model_dec (brand r, model_code r) key
                                       then true else false) db))
    by (rewrite Hf; now left).
  apply filter_In in Hin. destruct Hin as [Hin Hk].
  exists r. split; [exact Hin|].
  unfold brand_model. now destruct (brand_model_dec (brand r, model_code r) key).
Qed.

(** X12.  [duplicates_cmd]: a group that it lists is the exact pair of
    brand and model code of at least two rows, and its count is the number
    of rows with that pair; at most 20 groups are listed, the largest counts
    first; when at most 20 pairs belong to several rows, each of them is
    listed.  On a table in which no two rows have the same Matching Key it
    lists nothing; but it compares brand and model code as they are
    written, so two rows with the same Matching Key in different case are
    not listed. *)
Theorem duplicates_cmd_lists :
  (forall db key c,
      In (key, c) (duplicates_cmd db) ->
      2 <= c /\ c = count_brand_model key db /\
      exists r, In r db /\ brand_model r = key) /\
  (forall db,
      (List.length (duplicates_cmd db) <= 20)%nat /\
      ordered (desc snd) (duplicates_cmd db)) /\
  (forall db key,
      Z.of_nat
        (List.length
           (filter (fun k => 1 <? count_brand_model k db)
                   (nodup brand_model_dec (map (fun r => (brand r, model_code r)) db))))
      <= 20 ->
      2 <= count_brand_model key db ->
      In (key, count_brand_model key db) (duplicates_cmd db)) /\
  (forall db, NoDup (map key_of_frame db) -> duplicates_cmd db = []) /\
  (exists a b,
      key_of_frame a = key_of_frame b /\ id a <> id b /\
      duplicates_cmd [a; b] = []).
Proof.
  split; [|split; [|split; [|split]]].
  - intros db key c H. unfold duplicates_cmd in H.
    apply limit_rows_In in H. apply order_by_In in H.
    apply filter_In in H. destruct H as [H Hc]. cbn [snd] in Hc.
    apply in_map_iff in H. destruct H as (k & Hk & _).
    inversion Hk. subst. apply Z.ltb_lt in Hc.
    split; [lia|]. split; [reflexivity|].
    apply count_brand_model_pos. lia.
  - intros db. unfold duplicates_cmd. split.
    + unfold limit_rows. apply firstn_le_length.
    + unfold limit_rows. apply firstn_ordered.
      apply order_by_ordered, desc_total_order.
  - intros db key Hlen Hc. unfold duplicates_cmd.
    set (keys := nodup brand_model_dec (map (fun r => (brand r, model_code r)) db)) in *.
    assert (Hfl : filter (fun g : (option string * string) * Z => 1 <? snd g)
                         (map (fun key => (key, count_brand_model key db)) keys)
                  = map (fun key => (key, count_brand_model key db))
                        (filter (fun k => 1 <? count_brand_model k db) keys)).
    { clear. induction keys as [|k keys IH]; cbn [map filter snd]; [reflexivity|].
      destruct (1 <? count_brand_model k db); cbn [map]; now rewrite IH. }
    rewrite Hfl, limit_rows_all.
    + apply order_by_In. apply in_map_iff. exists key. split; [reflexivity|].
      apply filter_In. split.
      * unfold keys. apply nodup_In.
        destruct (count_brand_model_pos db key) as (r & Hr & Hk); [lia|].
        apply in_map_iff. exists r. split; [exact Hk|exact Hr].
      * apply Z.ltb_lt. lia.
    + rewrite order_by_length, length_map. lia.
  - intros db Hnd. unfold duplicates_cmd.
    rewrite filter_absent; [reflexivity|].
    intros [k c] Hin. cbn [snd]. apply in_map_iff in Hin.
    destruct Hin as (k' & Hk & _). inversion Hk. subst.
    apply Z.ltb_ge. now apply count_brand_model_unique.
  - exists ex_ray, (set_id ex_prompted 5). repeat split. discriminate.
Qed.

Lemma duplicates_cmd_lists_witness :
  In ((Some "Ray-Ban", "RB2140"),
      count_brand_model (Some "Ray-Ban", "RB2140") [ex_ray; ex_oakley; set_id ex_ray 7])
     (duplicates_cmd [ex_ray; ex_oakley; set_id ex_ray 7]).
Proof.
  apply (proj1 (proj2 (proj2 duplicates_cmd_lists))).
  - vm_compute. discriminate.
  - vm_compute. discriminate.
Defined.

(* ------------------------------------------------------------------ *)
(** ** A CSV line read back *)

(** Reading on after a quoted field. *)
Lemma csv_reader_quoted_then (s rest : string) : forall done cur,
  csv_reader InQuoted done cur (double_quotes s ++ String dquote rest)
  = csv_reader QuoteInQuoted done (cur ++ s) rest.
Proof.
  induction s as [|c s IH]; intros done cur.
  - cbn [double_quotes append csv_reader]. rewrite Ascii.eqb_refl.
    now rewrite append_empty_r.
  - cbn [double_quotes]. destruct (Ascii.eqb c dquote) eqn:E.
    + apply Ascii.eqb_eq in E. subst c.
      cbn [append csv_reader]. rewrite !Ascii.eqb_refl.
      rewrite IH, append_assoc. reflexivity.
    + cbn [append csv_reader]. rewrite E.
      rewrite IH, append_assoc. reflexivity.
Qed.

(** Reading on after a bare field, up to the comma or the newline [c]. *)
Lemma csv_reader_bare_then (s rest : string) (c : ascii) : forall st done cur,
  st = StartField \/ st = InField ->
  c = comma \/ c = newline ->
  needs_quoting s = false ->
  char_in carriage_return s = false ->
  csv_reader st done cur (s ++ String c rest)
  = if Ascii.eqb c comma
    then csv_reader StartField (done ++ [(cur ++ s)%string]) "" rest
    else (done ++ [(cur ++ s)%string])%list.
Proof.
  induction s as [|x s IH]; intros st done cur Hst Hc Hq Hcr.
  - cbn [append]. rewrite append_empty_r.
    destruct Hst as [-> | ->], Hc as [-> | ->]; reflexivity.
  - unfold needs_quoting in Hq. cbn [existsb char_in] in Hq, Hcr.
    rewrite !orb_false_r in Hq.
    apply orb_false_iff in Hq. destruct Hq as [Hq1 Hq].
    apply orb_false_iff in Hq. destruct Hq as [Hq2 Hq3].
    apply orb_false_iff in Hq1, Hq2, Hq3, Hcr.
    destruct Hq1 as [Hc1 Hs1], Hq2 as [Hc2 Hs2], Hq3 as [Hc3 Hs3], Hcr as [Hc4 Hs4].
    assert (Hq' : needs_quoting s = false).
    { unfold needs_quoting. cbn [existsb]. now rewrite Hs1, Hs2, Hs3. }
    assert (Hstep : csv_reader st done cur (String x s ++ String c rest)
                    = csv_reader InField done (cur ++ String x "") (s ++ String c rest)).
    { destruct Hst as [-> | ->]; cbn [append csv_reader];
        rewrite Hc1, Hc2, Hc3, Hc4; reflexivity. }
    rewrite Hstep, IH by auto. now rewrite append_assoc.
Qed.

(** Reading one field written by [esc], up to the comma or the newline that
    follows it. *)
Lemma csv_reader_esc (str_float : Q -> string) (v : value) (c : ascii)
    (rest : string) (done : list string) :
  c = comma \/ c = newline ->
  needs_quoting (field_text str_float v) = true
  \/ char_in carriage_return (field_text str_float v) = false ->
  csv_reader StartField done "" (esc str_float v ++ String c rest)
  = if Ascii.eqb c comma
    then csv_reader StartField (done ++ [field_text str_float v]) "" rest
    else (done ++ [field_text str_float v])%list.
Proof.
  intros Hc Hok.
  assert (Hcase : forall s,
             needs_quoting s = true \/ char_in carriage_return s = false ->
             csv_reader StartField done ""
               ((if needs_quoting s
                 then String dquote (double_quotes s ++ String dquote "")
                 else s) ++ String c rest)
             = if Ascii.eqb c comma
               then csv_reader StartField (done ++ [s]) "" rest
               else (done ++ [s])%list).
  { intros s Hs. destruct (needs_quoting s) eqn:Hq.
    - cbn [append]. rewrite append_assoc. cbn [append csv_reader].
      unfold comma, newline, carriage_return, dquote at 1 2 3.
      cbn [Ascii.eqb Bool.eqb orb andb].
      rewrite csv_reader_quoted_then. cbn [append].
      destruct Hc as [-> | ->]; reflexivity.
    - destruct Hs as [Hs|Hs]; [discriminate|].
      now rewrite (csv_reader_bare_then s rest c StartField done "") by auto. }
  destruct v as [|s|z|q].
  - cbn [esc field_text append]. destruct Hc as [-> | ->]; reflexivity.
  - apply (Hcase s). exact Hok.
  - apply (Hcase (str_int z)). exact Hok.
  - apply (Hcase (str_float q)). exact Hok.
Qed.

Lemma csv_reader_join (str_float : Q -> string) (vs : list value) :
  vs <> [] ->
  Forall (fun v => needs_quoting (field_text str_float v) = true
                   \/ char_in carriage_return (field_text str_float v) = false) vs ->
  forall done,
    csv_reader StartField done ""
      (join "," (map (esc str_float) vs) ++ String newline "")
    = (done ++ map (field_text str_float) vs)%list.
Proof.
  induction vs as [|v vs IH]; intros Hne Hall done; [congruence|].
  inversion Hall as [|? ? Hv Hvs]; subst.
  destruct vs as [|v' vs].
  - cbn [map join]. rewrite (csv_reader_esc str_float v newline "" done); auto.
  - change (join "," (map (esc str_float) (v :: v' :: vs)))
      with (esc str_float v ++ "," ++ join "," (map (esc str_float) (v' :: vs))).
    rewrite !append_assoc.
    change ("," ++ join "," (map (esc str_float) (v' :: vs)) ++ String newline "")
      with (String comma (join "," (map (esc str_float) (v' :: vs)) ++ String newline "")).
    rewrite (csv_reader_esc str_float v comma _ done) by auto.
    rewrite Ascii.eqb_refl. rewrite IH by (auto; discriminate).
    cbn [map]. now rewrite <- app_assoc.
Qed.

(** X13.  The line that the CSV export writes for a row reads back, with a
    standard CSV reader, as the 14 texts of the row's columns in the order
    of the header (the empty text for None), provided that no text has a
    carriage return without also having a comma, a double quote or a
    newline. *)
Theorem csv_line_round_trip (str_float : Q -> string) (isoformat : Z -> string)
    (r : Frame) :
  Forall (fun kv =>
            needs_quoting (field_text str_float (snd kv)) = true
            \/ char_in carriage_return (field_text str_float (snd kv)) = false)
         (to_dict isoformat r) ->
  map fst (to_dict isoformat r) = headers /\
  csv_read_record (csv_line str_float isoformat r)
  = map (fun kv => field_text str_float (snd kv)) (to_dict isoformat r).
Proof.
  intros Hall. split; [reflexivity|].
  unfold csv_read_record, csv_line.
  assert (Hvals : map (fun h => esc str_float (dict_get (to_dict isoformat r) h)) headers
                  = map (esc str_float) (map snd (to_dict isoformat r)))
    by reflexivity.
  rewrite Hvals, csv_reader_join.
  - cbn [app]. now rewrite map_map.
  - discriminate.
  - apply Forall_map. exact Hall.
Qed.

Lemma csv_line_round_trip_witness :
  map fst (to_dict ex_isoformat (set_notes ex_oakley (Some ex_notes))) = headers /\
  csv_read_record (csv_line ex_str_float ex_isoformat (set_notes ex_oakley (Some ex_notes)))
  = map (fun kv => field_text ex_str_float (snd kv))
        (to_dict ex_isoformat (set_notes ex_oakley (Some ex_notes))).
Proof.
  apply (csv_line_round_trip ex_str_float ex_isoformat
           (set_notes ex_oakley (Some ex_notes))).
  unfold to_dict.
  repeat (apply Forall_cons;
          [first [left; vm_compute; reflexivity | right; vm_compute; reflexivity]|]).
  apply Forall_nil.
Defined.


Lemma handlers_keep_ids_unique_witness :
  (forall out now, NoDup (map id (snd (add out now [ex_ray; ex_oakley])))) /\
  (forall data now, NoDup (map id (snd (new_confirm data now [ex_ray; ex_oakley])))) /\
  (forall sid tid, NoDup (map id (snd (merge_cmd sid tid [ex_ray; ex_oakley])))) /\
  (forall frame, NoDup (map id (snd (add_frame frame [ex_ray; ex_oakley])))).
Proof.
  apply (handlers_keep_ids_unique [ex_ray; ex_oakley]).
  simpl. repeat constructor; simpl; intuition discriminate.
Defined.

(* ------------------------------------------------------------------ *)
(** ** /export *)

Lemma export_limit_bounds (a : ExportArgs) : 1 <= export_limit a <= 2000.
Proof. unfold export_limit. destruct (limit_digits a); lia. Qed.

Lemma export_rows_nil_iff (a : ExportArgs) (db : Table) :
  export_rows a db = [] <-> filter (export_where a) db = [].
Proof.
  unfold export_rows. pose proof (export_limit_bounds a).
  rewrite limit_rows_nil_iff by lia. apply order_by_nil_iff.
Qed.

(** X14.  [export_cmd] answers that there is no data exactly when no row of
    the table passes its filters, whatever the format and the limit.  A
    document that it sends is named after the number of rows in it, which is
    at least 1 and at most the limit (itself between 1 and 2000), with the
    extension of the format; the rows are sent as a plain message only for
    the format [text] and a text of at most 3500 characters. *)
Theorem export_cmd_replies (str_float : Q -> string) (isoformat : Z -> string)
    (json_dump : list (list (string * value)) -> string)
    (a : ExportArgs) (db : Table) :
  (export_cmd str_float isoformat json_dump a db = NoDataToExport
   <-> forall r, In r db -> export_where a r = false) /\
  (forall content filename,
      export_cmd str_float isoformat json_dump a db = ReplyDocument content filename ->
      exists n ext,
        filename = "frames_export_" ++ str_int n ++ ext /\
        n = Z.of_nat (List.length (export_rows a db)) /\
        1 <= n <= export_limit a /\ export_limit a <= 2000 /\
        ext = (if String.eqb (format_type a) "json" then ".json"
               else if String.eqb (format_type a) "text"
                       || String.eqb (format_type a) "txt" then ".txt"
               else ".csv")) /\
  (forall out,
      export_cmd str_float isoformat json_dump a db = ReplyText out ->
      format_type a = "text" /\ Z.of_nat (String.length out) <= 3500).
Proof.
  pose proof (export_limit_bounds a) as Hlim.
  assert (Hlen : Z.of_nat (List.length (export_rows a db)) <= export_limit a).
  { unfold export_rows. apply limit_rows_length. lia. }
  split; [|split].
  - split.
    + intros H r Hr.
      assert (Hrows : export_rows a db = []).
      { unfold export_cmd in H. destruct (export_rows a db); [reflexivity|].
        destruct (String.eqb (format_type a) "json"); [discriminate|].
        destruct (String.eqb (format_type a) "text" || String.eqb (format_type a) "txt");
          [|discriminate].
        match type of H with (if ?b then _ else _) = _ => destruct b end;
          discriminate. }
      apply export_rows_nil_iff in Hrows.
      destruct (export_where a r) eqn:E; [|reflexivity].
      assert (Hin : In r (filter (export_where a) db)) by (apply filter_In; now split).
      rewrite Hrows in Hin. contradiction.
    + intros H. unfold export_cmd.
      assert (Hrows : export_rows a db = []).
      { apply export_rows_nil_iff. now apply filter_absent. }
      now rewrite Hrows.
  - intros content filename H. unfold export_cmd in H.
    destruct (export_rows a db) as [|r rows] eqn:Hrows; [discriminate|].
    exists (Z.of_nat (List.length (r :: rows))).
    assert (Hpos : 1 <= Z.of_nat (List.length (r :: rows))) by (cbn [List.length]; lia).
    destruct (String.eqb (format_type a) "json").
    + exists ".json". inversion H. repeat split; lia.
    + destruct (String.eqb (format_type a) "text" || String.eqb (format_type a) "txt").
      * exists ".txt".
        match type of H with (if ?b then _ else _) = _ => destruct b end;
          inversion H. repeat split; lia.
      * exists ".csv". inversion H. repeat split; lia.
  - intros out H. unfold export_cmd in H.
    destruct (export_rows a db) as [|r rows]; [discriminate|].
    destruct (String.eqb (format_type a) "json"); [discriminate|].
    destruct (String.eqb (format_type a) "text") eqn:Et;
      destruct (String.eqb (format_type a) "txt") eqn:Ex;
      cbn [orb] in H; try discriminate.
    match type of H with
      (if ?b then _ else _) = _ => destruct b eqn:Eb
    end; [discriminate|].
    inversion H. subst. apply String.eqb_eq in Et. split; [exact Et|].
    apply Z.ltb_ge in Eb. exact Eb.
Qed.

(* ------------------------------------------------------------------ *)
(** ** The top brands of /stats and the top materials of /count *)

Lemma first_by_desc_In {A : Type} (score : A -> Z) (l : list A) (y : A) :
  first_by_desc score l = Some y -> In y l.
Proof.
  revert y. induction l as [|a l IH]; intros y; cbn [first_by_desc]; [discriminate|].
  destruct (first_by_desc score l) as [z|].
  - destruct (score a <? score z); intros H; inversion H; subst.
    + right. now apply IH.
    + now left.
  - intros H. inversion H. now left.
Qed.

Lemma first_by_desc_max {A : Type} (score : A -> Z) (l : list A) (x : A) :
  In x l ->
  exists y, first_by_desc score l = Some y /\ In y l /\ score x <= score y.
Proof.
  induction l as [|a l IH]; [intros []|].
  cbn [first_by_desc In]. intros [->|Hin].
  - destruct (first_by_desc score l) as [y|] eqn:Hf.
    + destruct (Z.ltb_spec (score x) (score y)).
      * exists y. split; [reflexivity|]. split; [|lia].
        right. now apply (first_by_desc_In score).
      * exists x. split; [reflexivity|]. split; [now left|lia].
    + exists x. split; [reflexivity|]. split; [now left|lia].
  - destruct (IH Hin) as (y & Hy & Hiny & Hle). rewrite Hy.
    destruct (Z.ltb_spec (score a) (score y)).
    + exists y. split; [reflexivity|]. split; [now right|exact Hle].
    + exists a. split; [reflexivity|]. split; [now left|lia].
Qed.

Lemma group_by_brand_In (db : Table) (g : option string * list Frame) :
  In g (group_by_brand db) <->
  In (fst g) (map brand db) /\ snd g = rows_of_brand (fst g) db.
Proof.
  unfold group_by_brand. rewrite in_map_iff. split.
  - intros (b & <- & Hb). apply nodup_In in Hb. now split.
  - intros [Hb Hs]. exists (fst g). split.
    + destruct g as [b rows]. cbn [fst snd] in *. now subst.
    + now apply nodup_In.
Qed.

Lemma sum_stock_or_0 (rows : list Frame) :
  match sql_sum_stock rows with Some n => n | None => 0 end
  = fold_right Z.add 0 (map stock rows).
Proof. destruct rows; reflexivity. Qed.

Lemma count_of_brand_absent (b : option string) (db : Table) :
  ~ In b (map brand db) -> count_of_brand b db = 0.
Proof.
  intros H. unfold count_of_brand, rows_of_brand, sql_count.
  rewrite filter_absent; [reflexivity|].
  intros r Hr. destruct (option_string_dec (brand r) b) as [E|E]; [|reflexivity].
  exfalso. apply H. rewrite <- E. now apply in_map.
Qed.

(** X15.  On a table with rows, the top brand by frames that [stats_cmd]
    prints is a brand of the table (None printed as NoBrand), printed with
    the number of its rows, and no brand has more rows; the top brand by
    stock is a brand of the table, printed with the sum of the stocks of its
    rows, and no brand of the table has a larger sum. *)
Theorem stats_top_brands (fmt2 : Q -> string) (db : Table) :
  db <> [] ->
  exists t bc bs,
    stats_texts fmt2 db = inr t /\
    In bc (map brand db) /\
    top_by_count_txt t
    = or_NoBrand bc ++ " (" ++ str_int (count_of_brand bc db) ++ " frames)" /\
    (forall b, count_of_brand b db <= count_of_brand bc db) /\
    In bs (map brand db) /\
    top_by_stock_txt t
    = or_NoBrand bs ++ " (" ++ str_int (stock_of_brand bs db) ++ " units)" /\
    (forall b, In b (map brand db) -> stock_of_brand b db <= stock_of_brand bs db).
Proof.
  intros Hne.
  assert (Hr0 : exists r0, In r0 db)
    by (destruct db as [|r0 db0]; [congruence|exists r0; now left]).
  destruct Hr0 as [r0 Hr0].
  assert (Hg0 : In (brand r0, rows_of_brand (brand r0) db) (group_by_brand db)).
  { apply group_by_brand_In. cbn [fst snd]. split; [|reflexivity].
    now apply in_map. }
  destruct (stats_texts_total fmt2 db) as (avg & Ht & _).
  destruct (first_by_desc_max (fun g => sql_count (snd g)) _ _ Hg0)
    as (gc & Hgc & Hinc & _).
  destruct (first_by_desc_max
              (fun g => match sql_sum_stock (snd g) with Some n => n | None => 0 end)
              _ _ Hg0) as (gs & Hgs & Hins & _).
  apply group_by_brand_In in Hinc, Hins.
  destruct Hinc as [Hbc Hrc], Hins as [Hbs Hrs].
  eexists. exists (fst gc), (fst gs). split; [exact Ht|].
  cbn [top_by_count_txt top_by_stock_txt]. rewrite Hgc, Hgs.
  unfold Table in *.
  split; [exact Hbc|]. split.
  { unfold count_of_brand. now rewrite Hrc. }
  split.
  { intros b. destruct (in_dec option_string_dec b (map brand db)) as [Hb|Hb].
    - assert (Hg : In (b, rows_of_brand b db) (group_by_brand db))
        by (apply group_by_brand_In; now split).
      destruct (first_by_desc_max (fun g => sql_count (snd g)) _ _ Hg)
        as (y & Hy & _ & Hle).
      unfold Table in *.
      rewrite Hgc in Hy. inversion Hy. subst y. cbn [snd] in Hle.
      unfold count_of_brand. now rewrite <- Hrc.
    - rewrite (count_of_brand_absent b db Hb).
      unfold count_of_brand, sql_count. lia. }
  split; [exact Hbs|]. split.
  { unfold stock_of_brand. now rewrite <- Hrs, sum_stock_or_0. }
  intros b Hb.
  assert (Hg : In (b, rows_of_brand b db) (group_by_brand db))
    by (apply group_by_brand_In; now split).
  destruct (first_by_desc_max
              (fun g => match sql_sum_stock (snd g) with Some n => n | None => 0 end)
              _ _ Hg) as (y & Hy & _ & Hle).
  unfold Table in *.
  rewrite Hgs in Hy. inversion Hy. subst y. cbn [snd] in Hle.
  rewrite !sum_stock_or_0 in Hle. unfold stock_of_brand. now rewrite <- Hrs.
Qed.

Lemma stats_top_brands_witness :
  exists t bc bs,
    stats_texts ex_fmt2 [ex_ray; ex_oakley; ex_ray_dup; ex_free] = inr t /\
    In bc (map brand [ex_ray; ex_oakley; ex_ray_dup; ex_free]) /\
    top_by_count_txt t
    = or_NoBrand bc ++ " ("
      ++ str_int (count_of_brand bc [ex_ray; ex_oakley; ex_ray_dup; ex_free])
      ++ " frames)" /\
    (forall b, count_of_brand b [ex_ray; ex_oakley; ex_ray_dup; ex_free]
               <= count_of_brand bc [ex_ray; ex_oakley; ex_ray_dup; ex_free]) /\
    In bs (map brand [ex_ray; ex_oakley; ex_ray_dup; ex_free]) /\
    top_by_stock_txt t
    = or_NoBrand bs ++ " ("
      ++ str_int (stock_of_brand bs [ex_ray; ex_oakley; ex_ray_dup; ex_free])
      ++ " units)" /\
    (forall b, In b (map brand [ex_ray; ex_oakley; ex_ray_dup; ex_free]) ->
               stock_of_brand b [ex_ray; ex_oakley; ex_ray_dup; ex_free]
               <= stock_of_brand bs [ex_ray; ex_oakley; ex_ray_dup; ex_free]).
Proof.
  apply (stats_top_brands ex_fmt2 [ex_ray; ex_oakley; ex_ray_dup; ex_free]).
  discriminate.
Defined.

Lemma first_seen_In (x : string) (l : list string) :
  In x (first_seen l) <-> In x l.
Proof.
  induction l as [|a l IH]; cbn [first_seen In]; [reflexivity|].
  rewrite filter_In, IH. split.
  - intros [H|[H _]]; auto.
  - intros [H|H]; [now left|].
    destruct (String.eqb_spec x a) as [E|E]; [left; now symmetry|].
    right. split; [exact H|]. reflexivity.
Qed.

(** X16.  [count_cmd]: the total is the number of rows; the top lists at
    most 5 materials of the table (a row without material counts as
    unknown), each with the number of rows that have it, the largest number
    first; it is empty only for the empty table. *)
Theorem count_cmd_top (db : Table) :
  fst (count_cmd db) = Z.of_nat (List.length db) /\
  (List.length (snd (count_cmd db)) <= 5)%nat /\
  ordered (desc snd) (snd (count_cmd db)) /\
  (forall m c, In (m, c) (snd (count_cmd db)) ->
     1 <= c /\
     c = Z.of_nat (count_occ string_dec
                     (map (fun r => or_unknown (material r)) db) m) /\
     exists r, In r db /\ or_unknown (material r) = m) /\
  (snd (count_cmd db) = [] <-> db = []).
Proof.
  unfold count_cmd, most_common. cbn [fst snd].
  split; [reflexivity|]. split; [|split; [|split]].
  - unfold limit_rows. apply firstn_le_length.
  - unfold limit_rows. apply firstn_ordered.
    apply order_by_ordered, desc_total_order.
  - intros m c H. apply limit_rows_In in H. apply order_by_In in H.
    apply in_map_iff in H. destruct H as (k & Hk & Hin). inversion Hk. subst.
    apply (proj1 (first_seen_In _ _)) in Hin.
    pose proof (proj1 (count_occ_In string_dec _ _) Hin) as Hpos.
    split; [lia|]. split; [reflexivity|].
    apply in_map_iff in Hin. destruct Hin as (r & Hr & Hin). now exists r.
  - rewrite limit_rows_nil_iff by lia. rewrite order_by_nil_iff.
    split.
    + intros H. apply map_eq_nil in H.
      destruct db as [|r db]; [reflexivity|]. cbn [map first_seen] in H. discriminate.
    + intros ->. reflexivity.
Qed.

(* ------------------------------------------------------------------ *)
(** ** The conversation of /new *)







Section ConversationFacts.

Variable py_int : string -> option Z.
Variable py_float : string -> option Q.
Variable shlex_split : string -> option (list string).

Let step := conv_step py_int py_float shlex_split.



End ConversationFacts.


(* ------------------------------------------------------------------ *)
(** ** /brand, the bare re-scan, the created row, the empty search *)








Lemma filter_true {A : Type} (p : A -> bool) (l : list A) :
  (forall x, p x = true) -> filter p l = l.
Proof. intros H. apply filter_all. intros x _. apply H. Qed.

(** X21.  A search without any criterion lists the newest rows of the
    table: the bot's [search] lists what [recent_cmd] lists for the
    argument 10, and [search_frames] of [main.py] the 100 newest rows. *)
Theorem empty_search_is_recent (py_int : string -> option Z) (a : string)
    (db : Table) :
  py_int a = Some 10 ->
  search no_fields None None db = recent_cmd py_int [a] db /\
  search_frames no_filters db = limit_rows 100 (order_by (desc created_at) db).
Proof.
  intros Ha. split.
  - unfold search, recent_cmd, recent_limit. rewrite Ha.
    rewrite query_all_eq. rewrite filter_true; [reflexivity|].
    intros r. reflexivity.
  - unfold search_frames. rewrite query_all_eq.
    rewrite filter_true; [reflexivity|]. intros r. reflexivity.
Qed.

Lemma empty_search_is_recent_witness :
  search no_fields None None [ex_ray; ex_oakley; ex_free]
  = recent_cmd ex_py_int ["10"] [ex_ray; ex_oakley; ex_free] /\
  search_frames no_filters [ex_ray; ex_oakley; ex_free]
  = limit_rows 100 (order_by (desc created_at) [ex_ray; ex_oakley; ex_free]).
Proof.
  apply (empty_search_is_recent ex_py_int "10" [ex_ray; ex_oakley; ex_free]).
  reflexivity.
Defined.
